(** * The user-record service: store and request handlers

    A shallow embedding of [app/src/services/user_service.go] and
    [app/src/handlers/user_handler.go].

    - The map [s.users : map[string]*User] is a [gmap string User].  Every
      pointer stored in the map is reachable through exactly one key, so a
      field assignment through the pointer is an update of the map at that key.
    - [int32] values are integers in [Z]; the 32-bit arithmetic of [ListUsers]
      and the conversions [int(..)], [int32(..)] are written with their
      wrap-around ([int] is the 64-bit integer of the amd64 build).
    - [time.Time] is an integer count of nanoseconds.  [time.Now()] is the
      only source of time: the k-th call made by the process returns
      [wall k], and the world counts the calls made so far.
    - [time.Time.Format(time.RFC3339)] belongs to the Go library and is a
      parameter of the development.
    - The order in which [range] walks a Go map is not specified; [ListUsers]
      receives the order chosen for the call as a function [range], and the
      properties ask it to enumerate the map ([range m ≡ₚ map_to_list m]).
    - A run-time panic (here: a slice expression out of bounds) is the
      [Panic] outcome.  Calls on the logger do not touch the store and are
      left out. *)

From Stdlib Require Import ZArith Lia.
From stdpp Require Import base strings gmap list pretty.

Open Scope Z_scope.

(** ** Machine integers and time *)

(** Conversion to a signed 32-bit integer, keeping the low 32 bits. *)
Definition int32 (z : Z) : Z := (z + 2 ^ 31) `mod` 2 ^ 32 - 2 ^ 31.

(** Conversion to [int], 64 bits wide. *)
Definition int (z : Z) : Z := (z + 2 ^ 63) `mod` 2 ^ 64 - 2 ^ 63.

Definition int32_sub (a b : Z) : Z := int32 (a - b).
Definition int32_mul (a b : Z) : Z := int32 (a * b).
Definition int_add (a b : Z) : Z := int (a + b).

(** What a value of type [int32] can be. *)
Definition is_int32 (z : Z) : Prop := - 2 ^ 31 ≤ z < 2 ^ 31.

(** [time.Hour], in nanoseconds. *)
Definition Hour : Z := 3600 * 1000000000.

(** [t.Add(d)]. *)
Definition Time_Add (t d : Z) : Z := t + d.

(** The slice expression [a[low:high]] on a slice whose capacity is its
    length: [None] stands for the run-time panic "slice bounds out of
    range". *)
Definition slice {A} (a : list A) (low high : Z) : option (list A) :=
  if decide (0 ≤ low ∧ low ≤ high ∧ high ≤ Z.of_nat (length a))
  then Some (take (Z.to_nat (high - low)) (drop (Z.to_nat low) a))
  else None.

(** ** Data model *)

Record User := mkUser {
  ID : string;
  Name : string;
  Email : string;
  Age : Z;
  CreatedAt : Z;
  UpdatedAt : Z
}.

Definition with_Name (u : User) (v : string) : User :=
  mkUser (ID u) v (Email u) (Age u) (CreatedAt u) (UpdatedAt u).
Definition with_Email (u : User) (v : string) : User :=
  mkUser (ID u) (Name u) v (Age u) (CreatedAt u) (UpdatedAt u).
Definition with_Age (u : User) (v : Z) : User :=
  mkUser (ID u) (Name u) (Email u) v (CreatedAt u) (UpdatedAt u).
Definition with_UpdatedAt (u : User) (v : Z) : User :=
  mkUser (ID u) (Name u) (Email u) (Age u) (CreatedAt u) v.

(** The messages of package [proto], as the service reads and builds them.
    A message pointer that may be nil is an [option]. *)
Module proto.
Module User.
Record t := mk {
  Id : string; Name : string; Email : string; Age : Z;
  CreatedAt : string; UpdatedAt : string
}.
End User.
Module GetUserRequest.
Record t := mk { Id : string }.
End GetUserRequest.
Module GetUserResponse.
Record t := mk { User : option User.t; Success : bool; Message : string }.
End GetUserResponse.
Module CreateUserRequest.
Record t := mk { Name : string; Email : string; Age : Z }.
End CreateUserRequest.
Module CreateUserResponse.
Record t := mk { User : option User.t; Success : bool; Message : string }.
End CreateUserResponse.
Module UpdateUserRequest.
Record t := mk { Id : string; Name : string; Email : string; Age : Z }.
End UpdateUserRequest.
Module UpdateUserResponse.
Record t := mk { User : option User.t; Success : bool; Message : string }.
End UpdateUserResponse.
Module DeleteUserRequest.
Record t := mk { Id : string }.
End DeleteUserRequest.
Module DeleteUserResponse.
Record t := mk { Success : bool; Message : string }.
End DeleteUserResponse.
Module ListUsersRequest.
Record t := mk { Page : Z; Limit : Z }.
End ListUsersRequest.
Module ListUsersResponse.
Record t := mk { Users : list User.t; Total : Z; Success : bool; Message : string }.
End ListUsersResponse.
End proto.

(** The Go [error] value returned next to a response; [None] is [nil]. *)
Definition error : Type := string.

(** ** The world and the monad of the service *)

(** [users] is the field [s.users] of the one [UserService] of the process;
    [ticks] is the number of calls of [time.Now()] made so far. *)
Record World := mkWorld {
  users : gmap string User;
  ticks : nat
}.

Inductive outcome (A : Type) : Type :=
| Done (a : A) (w : World)
| Panic (msg : string).
Arguments Done {A} a w.
Arguments Panic {A} msg.

Definition M (A : Type) : Type := World → outcome A.

Definition ret {A} (a : A) : M A := λ w, Done a w.

Definition bind {A B} (m : M A) (k : A → M B) : M B :=
  λ w, match m w with
       | Done a w' => k a w'
       | Panic msg => Panic msg
       end.

Declare Scope go_scope.
Delimit Scope go_scope with go.
Notation "x <- m ;; k" := (bind m (λ x, k))
  (at level 100, m at next level, right associativity) : go_scope.
Notation "m ;; k" := (bind m (λ _, k))
  (at level 100, right associativity) : go_scope.
Open Scope go_scope.

Definition panic {A} (msg : string) : M A := λ _, Panic msg.

Definition get_users : M (gmap string User) := λ w, Done (users w) w.

Definition put_users (m : gmap string User) : M unit :=
  λ w, Done tt (mkWorld m (ticks w)).

(** [s.users[k] = u]. *)
Definition store_user (k : string) (u : User) : M unit :=
  m <- get_users ;; put_users (<[k := u]> m).

Fixpoint for_each {A} (f : A → M unit) (l : list A) : M unit :=
  match l with
  | [] => ret tt
  | x :: l' => f x ;; for_each f l'
  end.

(** The response of a call, or nothing after a panic. *)
Definition response {A} (o : outcome A) : option A :=
  match o with Done a _ => Some a | Panic _ => None end.

(** ** The service *)

Section Service.

(** [wall k] is what the k-th call of [time.Now()] returns. *)
Variable wall : nat → Z.

(** [t.Format(time.RFC3339)]. *)
Variable Format_RFC3339 : Z → string.

Definition time_Now : M Z :=
  λ w, Done (wall (ticks w)) (mkWorld (users w) (S (ticks w))).

Definition convertToProtoUser (user : User) : proto.User.t :=
  proto.User.mk (ID user) (Name user) (Email user) (Age user)
    (Format_RFC3339 (CreatedAt user)) (Format_RFC3339 (UpdatedAt user)).

Definition initializeSampleData : M unit :=
  c1 <- time_Now ;;
  u1 <- time_Now ;;
  c2 <- time_Now ;;
  u2 <- time_Now ;;
  let sampleUsers :=
    [ mkUser "1" "John Doe" "john.doe@example.com" 30
        (Time_Add c1 (-24 * Hour)) (Time_Add u1 (-24 * Hour));
      mkUser "2" "Jane Smith" "jane.smith@example.com" 25
        (Time_Add c2 (-12 * Hour)) (Time_Add u2 (-12 * Hour)) ] in
  for_each (λ user, store_user (ID user) user) sampleUsers.

Definition NewUserService : M unit :=
  put_users ∅ ;;
  initializeSampleData.

Definition GetUser (req : proto.GetUserRequest.t)
  : M (proto.GetUserResponse.t * option error) :=
  s_users <- get_users ;;
  match s_users !! proto.GetUserRequest.Id req with
  | None =>
      ret (proto.GetUserResponse.mk None false "User not found", None)
  | Some user =>
      ret (proto.GetUserResponse.mk (Some (convertToProtoUser user)) true
             "User retrieved successfully", None)
  end.

(** [len(s.users)+1] is an [int]; it cannot overflow, a map holding far
    fewer than 2^63 entries.  [fmt.Sprintf("%d", n)] is the decimal rendering
    [pretty n]. *)
Definition CreateUser (req : proto.CreateUserRequest.t)
  : M (proto.CreateUserResponse.t * option error) :=
  s_users <- get_users ;;
  let userID := pretty (Z.of_nat (size s_users) + 1) in
  createdAt <- time_Now ;;
  updatedAt <- time_Now ;;
  let user :=
    mkUser userID (proto.CreateUserRequest.Name req)
      (proto.CreateUserRequest.Email req) (proto.CreateUserRequest.Age req)
      createdAt updatedAt in
  store_user userID user ;;
  ret (proto.CreateUserResponse.mk (Some (convertToProtoUser user)) true
         "User created successfully", None).

Definition UpdateUser (req : proto.UpdateUserRequest.t)
  : M (proto.UpdateUserResponse.t * option error) :=
  s_users <- get_users ;;
  match s_users !! proto.UpdateUserRequest.Id req with
  | None =>
      ret (proto.UpdateUserResponse.mk None false "User not found", None)
  | Some user =>
      let user :=
        if decide (proto.UpdateUserRequest.Name req ≠ EmptyString)
        then with_Name user (proto.UpdateUserRequest.Name req) else user in
      let user :=
        if decide (proto.UpdateUserRequest.Email req ≠ EmptyString)
        then with_Email user (proto.UpdateUserRequest.Email req) else user in
      let user :=
        if decide (proto.UpdateUserRequest.Age req > 0)
        then with_Age user (proto.UpdateUserRequest.Age req) else user in
      now <- time_Now ;;
      let user := with_UpdatedAt user now in
      store_user (proto.UpdateUserRequest.Id req) user ;;
      ret (proto.UpdateUserResponse.mk (Some (convertToProtoUser user)) true
             "User updated successfully", None)
  end.

Definition DeleteUser (req : proto.DeleteUserRequest.t)
  : M (proto.DeleteUserResponse.t * option error) :=
  s_users <- get_users ;;
  match s_users !! proto.DeleteUserRequest.Id req with
  | None =>
      ret (proto.DeleteUserResponse.mk false "User not found", None)
  | Some _ =>
      put_users (delete (proto.DeleteUserRequest.Id req) s_users) ;;
      ret (proto.DeleteUserResponse.mk true "User deleted successfully", None)
  end.

(** [range] is the order in which the [for ... range s.users] loop of this
    call walks the map. *)
Definition ListUsers (range : gmap string User → list (string * User))
    (req : proto.ListUsersRequest.t)
  : M (proto.ListUsersResponse.t * option error) :=
  s_users <- get_users ;;
  let allUsers := (range s_users).*2 in
  let len_allUsers := Z.of_nat (length allUsers) in
  let start :=
    int (int32_mul (int32_sub (proto.ListUsersRequest.Page req) 1)
           (proto.ListUsersRequest.Limit req)) in
  let end_ := int_add start (int (proto.ListUsersRequest.Limit req)) in
  if decide (start >= len_allUsers) then
    ret (proto.ListUsersResponse.mk [] (int32 len_allUsers) true
           "No users found for the given page", None)
  else
    let end_ := if decide (end_ > len_allUsers) then len_allUsers else end_ in
    match slice allUsers start end_ with
    | None => panic "slice bounds out of range"
    | Some paginatedUsers =>
        ret (proto.ListUsersResponse.mk
               (convertToProtoUser <$> paginatedUsers)
               (int32 len_allUsers) true
               "Users retrieved successfully", None)
    end.

End Service.

(** ** The request handlers

    Each handler logs and hands the request to the service. *)

Section Handler.

Variable wall : nat → Z.
Variable Format_RFC3339 : Z → string.

Definition UserHandler_GetUser (req : proto.GetUserRequest.t) :=
  GetUser Format_RFC3339 req.

Definition UserHandler_CreateUser (req : proto.CreateUserRequest.t) :=
  CreateUser wall Format_RFC3339 req.

Definition UserHandler_UpdateUser (req : proto.UpdateUserRequest.t) :=
  UpdateUser wall Format_RFC3339 req.

Definition UserHandler_DeleteUser (req : proto.DeleteUserRequest.t) :=
  DeleteUser req.

Definition UserHandler_ListUsers
    (range : gmap string User → list (string * User))
    (req : proto.ListUsersRequest.t) :=
  ListUsers Format_RFC3339 range req.

(** The calls that change the store, and a client issuing them one after
    the other. *)
Inductive Mutation : Type :=
| DoCreate (req : proto.CreateUserRequest.t)
| DoUpdate (req : proto.UpdateUserRequest.t)
| DoDelete (req : proto.DeleteUserRequest.t).

Definition mutate (c : Mutation) : M unit :=
  match c with
  | DoCreate req => UserHandler_CreateUser req ;; ret tt
  | DoUpdate req => UserHandler_UpdateUser req ;; ret tt
  | DoDelete req => UserHandler_DeleteUser req ;; ret tt
  end.

(** A process: the service is built, then serves the calls in order. *)
Definition run (cs : list Mutation) : M unit :=
  NewUserService wall ;;
  for_each mutate cs.

(** The order of the two timestamps of every live record; no live record
    was updated later than the next reading of the clock. *)
Definition timestamps_ok (w : World) : Prop :=
  ∀ (id : string) (u : User),
    users w !! id = Some u →
    CreatedAt u ≤ UpdatedAt u ∧ UpdatedAt u ≤ wall (ticks w).

End Handler.

(** ** A serving process

    [main] builds one [UserService], wraps it in the one [UserHandler] it
    registers, and the handler's methods are then invoked on that service.
    The calls are taken one after the other; a panic ends the process. *)

Inductive Call : Type :=
| CallGet (req : proto.GetUserRequest.t)
| CallCreate (req : proto.CreateUserRequest.t)
| CallUpdate (req : proto.UpdateUserRequest.t)
| CallDelete (req : proto.DeleteUserRequest.t)
| CallList (range : gmap string User → list (string * User))
    (req : proto.ListUsersRequest.t).

Section Process.

Variable wall : nat → Z.
Variable Format_RFC3339 : Z → string.

Definition handle (c : Call) : M unit :=
  match c with
  | CallGet req => UserHandler_GetUser Format_RFC3339 req ;; ret tt
  | CallCreate req => UserHandler_CreateUser wall Format_RFC3339 req ;; ret tt
  | CallUpdate req => UserHandler_UpdateUser wall Format_RFC3339 req ;; ret tt
  | CallDelete req => UserHandler_DeleteUser req ;; ret tt
  | CallList range req => UserHandler_ListUsers Format_RFC3339 range req ;; ret tt
  end.

Definition serve (cs : list Call) : M unit :=
  NewUserService wall ;;
  for_each handle cs.

(** The records a List call hands back; none after a panic. *)
Definition page_users
    (o : outcome (proto.ListUsersResponse.t * option error))
  : list proto.User.t :=
  match o with
  | Done (resp, _) _ => proto.ListUsersResponse.Users resp
  | Panic _ => []
  end.

(** The pages 1, ..., [k] of one [limit], listed in one world under one
    iteration order, put end to end. *)
Definition pages (range : gmap string User → list (string * User))
    (limit : Z) (w : World) (k : nat) : list proto.User.t :=
  p ← seq 1 k;
  page_users
    (ListUsers Format_RFC3339 range
       (proto.ListUsersRequest.mk (Z.of_nat p) limit) w).

End Process.

(** Every record sits under its own id. *)
Definition keyed_by_id (m : gmap string User) : Prop :=
  ∀ (id : string) (u : User), m !! id = Some u → ID u = id.

(** The keys are the decimal numerals 1, ..., [size m]. *)
Definition dense (m : gmap string User) : Prop :=
  ∀ id : string,
    is_Some (m !! id) ↔ ∃ k : Z, 1 ≤ k ≤ Z.of_nat (size m) ∧ id = pretty k.

Definition is_delete (c : Mutation) : bool :=
  match c with DoDelete _ => true | _ => false end.

Definition is_create (c : Mutation) : bool :=
  match c with DoCreate _ => true | _ => false end.

(** ** The wording of the specification, for comparison with the code *)

Section Specified.

Variable Format_RFC3339 : Z → string.

(** The positions [start ≤ i < end] of a sequence. *)
Definition between {A} (l : list A) (start end_ : Z) : list A :=
  take (Z.to_nat end_ - Z.to_nat start)%nat (drop (Z.to_nat start) l).

(** List, in the words of the specification: [start = (page-1)*limit] and
    [end = start+limit] over the integers, the empty page when
    [start ≥ total], otherwise [end] clamped to [total] and the slice
    [[start, end)]; [total] is the live count. *)
Definition List_specified (range : gmap string User → list (string * User))
    (req : proto.ListUsersRequest.t) (w : World)
  : outcome (proto.ListUsersResponse.t * option error) :=
  let records := (range (users w)).*2 in
  let total := Z.of_nat (size (users w)) in
  let start :=
    (proto.ListUsersRequest.Page req - 1) * proto.ListUsersRequest.Limit req in
  let end_ := start + proto.ListUsersRequest.Limit req in
  if decide (start >= total) then
    Done (proto.ListUsersResponse.mk [] total true
            "No users found for the given page", None) w
  else
    Done (proto.ListUsersResponse.mk
            (convertToProtoUser Format_RFC3339 <$>
               between records start (Z.min end_ total))
            total true "Users retrieved successfully", None) w.

(** The seeded store, in the words of the specification: two records,
    created 24 and 12 hours before one start time, each with
    [updatedAt = createdAt]. *)
Definition seed_specified (start : Z) : gmap string User :=
  {[ "1" := mkUser "1" "John Doe" "john.doe@example.com" 30
              (start - 24 * Hour) (start - 24 * Hour);
     "2" := mkUser "2" "Jane Smith" "jane.smith@example.com" 25
              (start - 12 * Hour) (start - 12 * Hour) ]}.

End Specified.

(** ** Environments for the examples *)

(** A clock that advances by one nanosecond at every reading. *)
Definition ticking (k : nat) : Z := Z.of_nat k.

(** A clock that stands still. *)
Definition frozen (k : nat) : Z := 0.

(** A stand-in for the RFC 3339 rendering: the nanosecond count in decimal. *)
Definition show (t : Z) : string := pretty t.

(** The world of a process that has just started. *)
Definition boot : World := mkWorld ∅ 0.

(** The two sample records as [NewUserService] builds them in [boot] under
    the ticking clock, and the world it leaves. *)
Definition john : User :=
  mkUser "1" "John Doe" "john.doe@example.com" 30
    (0 - 24 * Hour) (1 - 24 * Hour).

Definition jane : User :=
  mkUser "2" "Jane Smith" "jane.smith@example.com" 25
    (2 - 12 * Hour) (3 - 12 * Hour).

Definition seeded : World := mkWorld {[ "1" := john; "2" := jane ]} 4.

(** The seeded world after [Delete("1")]: one record, under the id "2". *)
Definition seeded_without_john : World := mkWorld {[ "2" := jane ]} 4.

(** Two Create requests for the examples. *)
Definition create_A : proto.CreateUserRequest.t :=
  proto.CreateUserRequest.mk "A" "a@x.com" 20.

Definition create_B : proto.CreateUserRequest.t :=
  proto.CreateUserRequest.mk "B" "b@x.com" 41.

(** ** Properties *)

Ltac go_unfold :=
  unfold UserHandler_GetUser, UserHandler_CreateUser, UserHandler_UpdateUser,
    UserHandler_DeleteUser, UserHandler_ListUsers,
    GetUser, CreateUser, UpdateUser, DeleteUser, ListUsers,
    store_user, time_Now, get_users, put_users, panic, bind, ret.

Lemma int32_id (z : Z) : is_int32 z → int32 z = z.
Proof.
  unfold is_int32, int32. intros Hz.
  rewrite Z.mod_small by lia. lia.
Qed.

Lemma int_id (z : Z) : - 2 ^ 63 ≤ z < 2 ^ 63 → int z = z.
Proof.
  unfold int. intros Hz.
  rewrite Z.mod_small by lia. lia.
Qed.

Lemma int32_is_int32 (z : Z) : is_int32 (int32 z).
Proof.
  unfold is_int32, int32.
  pose proof (Z.mod_pos_bound (z + 2 ^ 31) (2 ^ 32)). lia.
Qed.

Section Properties.

Variable wall : nat → Z.
Variable Format_RFC3339 : Z → string.

Abbreviation convert := (convertToProtoUser Format_RFC3339).

(** The id [CreateUser] allocates in a world. *)
Lemma CreateUser_run (req : proto.CreateUserRequest.t) (w : World) :
  let userID := pretty (Z.of_nat (size (users w)) + 1) in
  let user :=
    mkUser userID (proto.CreateUserRequest.Name req)
      (proto.CreateUserRequest.Email req) (proto.CreateUserRequest.Age req)
      (wall (ticks w)) (wall (S (ticks w))) in
  CreateUser wall Format_RFC3339 req w =
    Done (proto.CreateUserResponse.mk (Some (convert user)) true
            "User created successfully", None)
         (mkWorld (<[userID := user]> (users w)) (S (S (ticks w)))).
Proof. reflexivity. Qed.

Lemma UpdateUser_run (req : proto.UpdateUserRequest.t) (w : World) (u : User) :
  users w !! proto.UpdateUserRequest.Id req = Some u →
  let user :=
    mkUser (ID u)
      (if decide (proto.UpdateUserRequest.Name req ≠ EmptyString)
       then proto.UpdateUserRequest.Name req else Name u)
      (if decide (proto.UpdateUserRequest.Email req ≠ EmptyString)
       then proto.UpdateUserRequest.Email req else Email u)
      (if decide (proto.UpdateUserRequest.Age req > 0)
       then proto.UpdateUserRequest.Age req else Age u)
      (CreatedAt u) (wall (ticks w)) in
  UpdateUser wall Format_RFC3339 req w =
    Done (proto.UpdateUserResponse.mk (Some (convert user)) true
            "User updated successfully", None)
         (mkWorld (<[proto.UpdateUserRequest.Id req := user]> (users w))
            (S (ticks w))).
Proof.
  intros Hu. go_unfold. rewrite Hu. simpl.
  destruct u; repeat case_decide; reflexivity.
Qed.

Lemma DeleteUser_run (req : proto.DeleteUserRequest.t) (w : World) (u : User) :
  users w !! proto.DeleteUserRequest.Id req = Some u →
  DeleteUser req w =
    Done (proto.DeleteUserResponse.mk true "User deleted successfully", None)
         (mkWorld (delete (proto.DeleteUserRequest.Id req) (users w)) (ticks w)).
Proof. intros Hu. go_unfold. rewrite Hu. reflexivity. Qed.

Lemma World_eta (w : World) : mkWorld (users w) (ticks w) = w.
Proof. destruct w; reflexivity. Qed.

Lemma GetUser_absent (id : string) (w : World) :
  users w !! id = None →
  GetUser Format_RFC3339 (proto.GetUserRequest.mk id) w =
    Done (proto.GetUserResponse.mk None false "User not found", None) w.
Proof. intros Hid. go_unfold. simpl. rewrite Hid. reflexivity. Qed.

Lemma DeleteUser_absent (id : string) (w : World) :
  users w !! id = None →
  DeleteUser (proto.DeleteUserRequest.mk id) w =
    Done (proto.DeleteUserResponse.mk false "User not found", None) w.
Proof. intros Hid. go_unfold. simpl. rewrite Hid. reflexivity. Qed.

Lemma UpdateUser_absent (req : proto.UpdateUserRequest.t) (w : World) :
  users w !! proto.UpdateUserRequest.Id req = None →
  UpdateUser wall Format_RFC3339 req w =
    Done (proto.UpdateUserResponse.mk None false "User not found", None) w.
Proof. intros Hid. go_unfold. rewrite Hid. reflexivity. Qed.

(** C1, amended. In every world and for every request, [CreateUser]
    allocates the id that is the decimal rendering of the live record count
    plus one, whatever ids were issued before (two worlds with the same count
    get the same id); the new record carries the request's name, email and
    age; its createdAt is the reading of the clock at the first call of
    [time.Now()] of the operation and its updatedAt the reading at the
    second call, so the two are equal when the clock reads the same at both
    calls; the record is inserted under that id; the response has
    [Success = true], a nil error and a user message with that id, the
    request's name, email and age, and the RFC 3339 renderings of the two
    readings. *)
Theorem CreateUser_allocates (req : proto.CreateUserRequest.t) (w : World) :
  ∃ (user : User) (pu : proto.User.t) (w' : World),
    CreateUser wall Format_RFC3339 req w =
      Done (proto.CreateUserResponse.mk (Some pu) true
              "User created successfully", None) w'
    ∧ ID user = pretty (Z.of_nat (size (users w)) + 1)
    ∧ Name user = proto.CreateUserRequest.Name req
    ∧ Email user = proto.CreateUserRequest.Email req
    ∧ Age user = proto.CreateUserRequest.Age req
    ∧ CreatedAt user = wall (ticks w)
    ∧ UpdatedAt user = wall (S (ticks w))
    ∧ (wall (S (ticks w)) = wall (ticks w) → UpdatedAt user = CreatedAt user)
    ∧ users w' = <[ID user := user]> (users w)
    ∧ users w' !! ID user = Some user
    ∧ ticks w' = S (S (ticks w))
    ∧ proto.User.Id pu = pretty (Z.of_nat (size (users w)) + 1)
    ∧ proto.User.Name pu = proto.CreateUserRequest.Name req
    ∧ proto.User.Email pu = proto.CreateUserRequest.Email req
    ∧ proto.User.Age pu = proto.CreateUserRequest.Age req
    ∧ proto.User.CreatedAt pu = Format_RFC3339 (wall (ticks w))
    ∧ proto.User.UpdatedAt pu = Format_RFC3339 (wall (S (ticks w)))
    ∧ (∀ (req2 : proto.CreateUserRequest.t) (w2 : World),
         size (users w2) = size (users w) →
         ∃ (pu2 : proto.User.t) (w2' : World),
           CreateUser wall Format_RFC3339 req2 w2 =
             Done (proto.CreateUserResponse.mk (Some pu2) true
                     "User created successfully", None) w2'
           ∧ proto.User.Id pu2 = proto.User.Id pu).
Proof.
  exists (mkUser (pretty (Z.of_nat (size (users w)) + 1))
            (proto.CreateUserRequest.Name req)
            (proto.CreateUserRequest.Email req)
            (proto.CreateUserRequest.Age req)
            (wall (ticks w)) (wall (S (ticks w)))).
  eexists _, _. split; [apply CreateUser_run|]. simpl.
  split_and!; try reflexivity.
  - intros Hstill. exact Hstill.
  - apply lookup_insert_eq.
  - intros req2 w2 Hsize. eexists _, _.
    split; [apply CreateUser_run|]. simpl. by rewrite Hsize.
Qed.

(** C3. When the id of an Update request is a key of the store, the name
    is overwritten only if the supplied name is non-empty, the email only
    if the supplied email is non-empty, the age only if the supplied age is
    strictly positive; id and createdAt are kept; updatedAt becomes the
    current reading of the clock whether or not a field changed; the
    updated record is stored under the id, and the response has
    [Success = true], a nil error and a user message carrying the id, name,
    email and age of the updated record and the RFC 3339 renderings of its
    createdAt and of its new updatedAt. *)
Theorem UpdateUser_partial (req : proto.UpdateUserRequest.t) (w : World)
    (u : User) (Hlive : users w !! proto.UpdateUserRequest.Id req = Some u) :
  ∃ (user : User) (pu : proto.User.t) (w' : World),
    UpdateUser wall Format_RFC3339 req w =
      Done (proto.UpdateUserResponse.mk (Some pu) true
              "User updated successfully", None) w'
    ∧ users w' = <[proto.UpdateUserRequest.Id req := user]> (users w)
    ∧ users w' !! proto.UpdateUserRequest.Id req = Some user
    ∧ (proto.UpdateUserRequest.Name req ≠ EmptyString →
         Name user = proto.UpdateUserRequest.Name req)
    ∧ (proto.UpdateUserRequest.Name req = EmptyString → Name user = Name u)
    ∧ (proto.UpdateUserRequest.Email req ≠ EmptyString →
         Email user = proto.UpdateUserRequest.Email req)
    ∧ (proto.UpdateUserRequest.Email req = EmptyString → Email user = Email u)
    ∧ (proto.UpdateUserRequest.Age req > 0 →
         Age user = proto.UpdateUserRequest.Age req)
    ∧ (proto.UpdateUserRequest.Age req ≤ 0 → Age user = Age u)
    ∧ ID user = ID u
    ∧ CreatedAt user = CreatedAt u
    ∧ UpdatedAt user = wall (ticks w)
    ∧ proto.User.Id pu = ID u
    ∧ proto.User.Name pu = Name user
    ∧ proto.User.Email pu = Email user
    ∧ proto.User.Age pu = Age user
    ∧ proto.User.CreatedAt pu = Format_RFC3339 (CreatedAt u)
    ∧ proto.User.UpdatedAt pu = Format_RFC3339 (wall (ticks w)).
Proof.
  exists (mkUser (ID u)
            (if decide (proto.UpdateUserRequest.Name req ≠ EmptyString)
             then proto.UpdateUserRequest.Name req else Name u)
            (if decide (proto.UpdateUserRequest.Email req ≠ EmptyString)
             then proto.UpdateUserRequest.Email req else Email u)
            (if decide (proto.UpdateUserRequest.Age req > 0)
             then proto.UpdateUserRequest.Age req else Age u)
            (CreatedAt u) (wall (ticks w))).
  eexists _, _. split; [apply (UpdateUser_run _ _ _ Hlive)|]. simpl.
  split; [reflexivity|]. split; [apply lookup_insert_eq|].
  split_and!; try reflexivity; intros; case_decide; congruence || lia.
Qed.

(** C6. When the id is not a key of the store, Get, Update and Delete each
    return [Success = false] with the message "User not found", no record,
    a nil error and no panic, and leave the world as it was; a second
    Delete of the same id returns the same. *)
Theorem absent_id_not_found (id name email : string) (age : Z) (w : World)
    (Habsent : users w !! id = None) :
  GetUser Format_RFC3339 (proto.GetUserRequest.mk id) w =
    Done (proto.GetUserResponse.mk None false "User not found", None) w
  ∧ UpdateUser wall Format_RFC3339
      (proto.UpdateUserRequest.mk id name email age) w =
    Done (proto.UpdateUserResponse.mk None false "User not found", None) w
  ∧ DeleteUser (proto.DeleteUserRequest.mk id) w =
    Done (proto.DeleteUserResponse.mk false "User not found", None) w
  ∧ (DeleteUser (proto.DeleteUserRequest.mk id) ;;
     DeleteUser (proto.DeleteUserRequest.mk id)) w =
    Done (proto.DeleteUserResponse.mk false "User not found", None) w.
Proof.
  repeat split.
  - by apply GetUser_absent.
  - by apply UpdateUser_absent.
  - by apply DeleteUser_absent.
  - unfold bind. rewrite !DeleteUser_absent by done. reflexivity.
Qed.

(** C9. When the id is a key of the store, Delete returns [Success = true]
    (its response has no record field) and a nil error; the key is removed,
    every other key keeps its record, the live count is one less than
    before, and a Get of the id that follows returns [Success = false]. *)
Theorem DeleteUser_removes (id : string) (w : World) (u : User)
    (Hlive : users w !! id = Some u) :
  ∃ w' : World,
    DeleteUser (proto.DeleteUserRequest.mk id) w =
      Done (proto.DeleteUserResponse.mk true "User deleted successfully", None) w'
    ∧ users w' = delete id (users w)
    ∧ S (size (users w')) = size (users w)
    ∧ users w' !! id = None
    ∧ GetUser Format_RFC3339 (proto.GetUserRequest.mk id) w' =
        Done (proto.GetUserResponse.mk None false "User not found", None) w'.
Proof.
  eexists. split; [apply (DeleteUser_run (proto.DeleteUserRequest.mk id) w u Hlive)|].
  simpl. split; [reflexivity|].
  assert (Hgone : delete id (users w) !! id = None) by apply lookup_delete_eq.
  repeat split.
  - rewrite map_size_delete, Hlive.
    destruct (size (users w)) eqn:Hsz; [|reflexivity].
    apply map_size_empty_inv in Hsz. rewrite Hsz in Hlive.
    by rewrite lookup_empty in Hlive.
  - exact Hgone.
  - by apply GetUser_absent.
Qed.

(** C10. [CreateUser] checks nothing and cannot fail: whatever the name,
    email and age (empty strings, zero and negative ages included) it
    returns [Success = true] with a nil error, and the record it stores
    holds the supplied values as they are.  [UpdateUser], on a live record,
    never writes an empty name, an empty email or a non-positive age: a
    field that is empty or non-positive after the update was so before. *)
Theorem CreateUser_no_validation (creq : proto.CreateUserRequest.t)
    (w : World) :
  (∃ (user : User) (w' : World),
     CreateUser wall Format_RFC3339 creq w =
       Done (proto.CreateUserResponse.mk (Some (convert user)) true
               "User created successfully", None) w'
     ∧ users w' !! ID user = Some user
     ∧ Name user = proto.CreateUserRequest.Name creq
     ∧ Email user = proto.CreateUserRequest.Email creq
     ∧ Age user = proto.CreateUserRequest.Age creq)
  ∧ (∀ (ureq : proto.UpdateUserRequest.t) (w1 : World) (u : User),
       users w1 !! proto.UpdateUserRequest.Id ureq = Some u →
       ∃ (user : User) (resp : proto.UpdateUserResponse.t) (w2 : World),
         UpdateUser wall Format_RFC3339 ureq w1 = Done (resp, None) w2
         ∧ users w2 !! proto.UpdateUserRequest.Id ureq = Some user
         ∧ (Name user = EmptyString → Name u = EmptyString)
         ∧ (Email user = EmptyString → Email u = EmptyString)
         ∧ (Age user ≤ 0 → Age u = Age user)).
Proof.
  split.
  - eexists _, _. split; [apply CreateUser_run|]. simpl.
    repeat split. apply lookup_insert_eq.
  - intros ureq w1 u Hu. eexists _, _, _.
    split; [apply (UpdateUser_run _ _ _ Hu)|]. simpl.
    split; [apply lookup_insert_eq|].
    repeat split; intros Hval; cbn in *; case_decide; congruence || lia.
Qed.

(** A record under a key other than the allocated id is untouched by
    [CreateUser]. *)
Lemma CreateUser_frame (req : proto.CreateUserRequest.t) (w : World)
    (id : string) :
  id ≠ pretty (Z.of_nat (size (users w)) + 1) →
  ∃ resp w',
    CreateUser wall Format_RFC3339 req w = Done resp w'
    ∧ users w' !! id = users w !! id.
Proof.
  intros Hne. eexists _, _. split; [apply CreateUser_run|]. simpl.
  by rewrite lookup_insert_ne.
Qed.

(** What [NewUserService] leaves in the world. *)
Lemma NewUserService_run (w0 : World) :
  NewUserService wall w0 =
    Done tt
      (mkWorld
         {[ "1" := mkUser "1" "John Doe" "john.doe@example.com" 30
                     (wall (ticks w0) - 24 * Hour)
                     (wall (S (ticks w0)) - 24 * Hour);
            "2" := mkUser "2" "Jane Smith" "jane.smith@example.com" 25
                     (wall (S (S (ticks w0))) - 12 * Hour)
                     (wall (S (S (S (ticks w0)))) - 12 * Hour) ]}
         (S (S (S (S (ticks w0)))))).
Proof.
  unfold NewUserService, initializeSampleData, for_each.
  go_unfold. simpl. unfold Time_Add.
  rewrite insert_insert_ne by done. rewrite insert_empty.
  repeat f_equal; lia.
Qed.

(** C7, amended. A freshly constructed store holds exactly two records:
    id "1" with name "John Doe", email "john.doe@example.com", age 30 and
    id "2" with name "Jane Smith", email "jane.smith@example.com", age 25.
    Construction reads the clock four times; createdAt and updatedAt of
    record "1" are 24 hours before the first and the second reading,
    createdAt and updatedAt of record "2" are 12 hours before the third and
    the fourth reading. *)
Theorem NewUserService_seeds (w0 : World) :
  ∃ w : World,
    NewUserService wall w0 = Done tt w
    ∧ size (users w) = 2%nat
    ∧ users w !! "1" =
        Some (mkUser "1" "John Doe" "john.doe@example.com" 30
                (wall (ticks w0) - 24 * Hour)
                (wall (ticks w0 + 1) - 24 * Hour))
    ∧ users w !! "2" =
        Some (mkUser "2" "Jane Smith" "jane.smith@example.com" 25
                (wall (ticks w0 + 2) - 12 * Hour)
                (wall (ticks w0 + 3) - 12 * Hour))
    ∧ (∀ id : string, id ≠ "1" → id ≠ "2" → users w !! id = None)
    ∧ ticks w = (ticks w0 + 4)%nat.
Proof.
  eexists. split; [apply NewUserService_run|]. cbn [users ticks].
  replace (ticks w0 + 1)%nat with (S (ticks w0)) by lia.
  replace (ticks w0 + 2)%nat with (S (S (ticks w0))) by lia.
  replace (ticks w0 + 3)%nat with (S (S (S (ticks w0)))) by lia.
  split_and!.
  - rewrite map_size_insert_None by (by rewrite lookup_singleton_ne).
    by rewrite map_size_singleton.
  - apply lookup_insert_eq.
  - rewrite lookup_insert_ne by done. apply lookup_singleton_eq.
  - intros id H1 H2.
    rewrite lookup_insert_ne by done. by rewrite lookup_singleton_ne.
  - lia.
Qed.

(** When the clock reads the same at the four calls, the seeded store is
    the one the specification describes. *)
Lemma NewUserService_still_clock (w0 : World) (start : Z) :
  (∀ k : nat, (k < 4)%nat → wall (ticks w0 + k) = start) →
  ∃ w, NewUserService wall w0 = Done tt w ∧ users w = seed_specified start.
Proof.
  intros Hstill. eexists. split; [apply NewUserService_run|]. cbn [users].
  pose proof (Hstill 0%nat) as H0. pose proof (Hstill 1%nat) as H1.
  pose proof (Hstill 2%nat) as H2. pose proof (Hstill 3%nat) as H3.
  replace (ticks w0 + 0)%nat with (ticks w0) in H0 by lia.
  replace (ticks w0 + 1)%nat with (S (ticks w0)) in H1 by lia.
  replace (ticks w0 + 2)%nat with (S (S (ticks w0))) in H2 by lia.
  replace (ticks w0 + 3)%nat with (S (S (S (ticks w0)))) in H3 by lia.
  rewrite H0, H1, H2, H3 by lia. reflexivity.
Qed.

(** Get, Create, Update and Delete return a response and a nil error in
    every world; none of them can panic. *)
Lemma four_operations_return (w : World) :
  (∀ req, ∃ resp, GetUser Format_RFC3339 req w = Done (resp, None) w)
  ∧ (∀ req, ∃ resp w', CreateUser wall Format_RFC3339 req w = Done (resp, None) w')
  ∧ (∀ req, ∃ resp w', UpdateUser wall Format_RFC3339 req w = Done (resp, None) w')
  ∧ (∀ req, ∃ resp w', DeleteUser req w = Done (resp, None) w').
Proof.
  split_and!; intros req.
  - go_unfold. destruct (users w !! _); eauto.
  - eexists _, _. apply CreateUser_run.
  - destruct (users w !! proto.UpdateUserRequest.Id req) as [u|] eqn:Hreq.
    + eexists _, _. apply (UpdateUser_run _ _ _ Hreq).
    + eexists _, _. apply (UpdateUser_absent _ _ Hreq).
  - go_unfold. destruct (users w !! _); eauto.
Qed.

(** *** Pagination *)

Lemma range_length (range : gmap string User → list (string * User))
    (m : gmap string User) :
  range m ≡ₚ map_to_list m → length (range m).*2 = size m.
Proof.
  intros Hrange. rewrite length_fmap, Hrange. apply length_map_to_list.
Qed.

(** Without overflow the 32-bit product is the product. *)
Lemma start_exact (page limit : Z) :
  is_int32 page → is_int32 limit → 0 ≤ limit →
  0 ≤ (page - 1) * limit < 2 ^ 31 →
  int (int32_mul (int32_sub page 1) limit) = (page - 1) * limit.
Proof.
  unfold int32_mul, int32_sub. intros Hpage Hlimit Hnonneg Hstart.
  destruct (decide (limit = 0)) as [->|Hpos].
  - rewrite !Z.mul_0_r. reflexivity.
  - assert (1 ≤ page) by nia.
    unfold is_int32 in *.
    rewrite (int32_id (page - 1)) by (unfold is_int32; lia).
    rewrite int32_id by (unfold is_int32; lia).
    apply int_id. lia.
Qed.

(** C2, amended. For a store of fewer than 2^31 records, a limit that is
    not negative and a start [(page-1)*limit] that is not negative and fits
    in 32 bits, [ListUsers] does what the specification says of List: with
    [end = start+limit], when [start ≥ total] it returns the empty sequence
    with [Success = true], the live count as total and the message "No
    users found for the given page"; otherwise it clamps [end] to the total
    and returns the records at positions [[start, end)] of the sequence it
    materialised, the live count as total and the message "Users retrieved
    successfully". *)
Theorem ListUsers_pages (range : gmap string User → list (string * User))
    (req : proto.ListUsersRequest.t) (w : World)
    (Hrange : range (users w) ≡ₚ map_to_list (users w))
    (Hpage : is_int32 (proto.ListUsersRequest.Page req))
    (Hlimit : is_int32 (proto.ListUsersRequest.Limit req))
    (Hnonneg : 0 ≤ proto.ListUsersRequest.Limit req)
    (Hstart : 0 ≤ (proto.ListUsersRequest.Page req - 1)
                  * proto.ListUsersRequest.Limit req < 2 ^ 31)
    (Hsize : Z.of_nat (size (users w)) < 2 ^ 31) :
  ListUsers Format_RFC3339 range req w
  = List_specified Format_RFC3339 range req w.
Proof.
  unfold ListUsers, List_specified, int_add, get_users, bind, ret.
  rewrite (range_length _ _ Hrange).
  rewrite (start_exact _ _ Hpage Hlimit Hnonneg Hstart).
  set (total := Z.of_nat (size (users w))) in *.
  set (start := (proto.ListUsersRequest.Page req - 1)
                * proto.ListUsersRequest.Limit req) in *.
  set (limit := proto.ListUsersRequest.Limit req) in *.
  unfold is_int32 in *.
  rewrite (int_id limit) by lia.
  rewrite (int_id (start + limit)) by lia.
  rewrite (int32_id total) by (unfold is_int32; lia).
  destruct (decide (start >= total)) as [Hge|Hlt]; [reflexivity|].
  assert (Hclamp : (if decide (start + limit > total) then total
                    else start + limit) = Z.min (start + limit) total)
    by (case_decide; lia).
  rewrite Hclamp. unfold slice.
  rewrite (range_length _ _ Hrange). fold total.
  rewrite decide_True by lia.
  unfold between.
  rewrite Z2Nat.inj_sub by lia. reflexivity.
Qed.

(** *** Order of the timestamps *)

Hypothesis wall_mono : ∀ i j : nat, (i ≤ j)%nat → wall i ≤ wall j.

Lemma NewUserService_timestamps (w0 : World) :
  ∃ w, NewUserService wall w0 = Done tt w ∧ timestamps_ok wall w.
Proof.
  eexists. split; [apply NewUserService_run|].
  intros id u. cbn [users ticks].
  pose proof (wall_mono (ticks w0) (S (ticks w0))).
  pose proof (wall_mono (S (ticks w0)) (S (S (S (S (ticks w0)))))).
  pose proof (wall_mono (S (S (ticks w0))) (S (S (S (ticks w0))))).
  pose proof (wall_mono (S (S (S (ticks w0)))) (S (S (S (S (ticks w0)))))).
  assert (0 < Hour) by (unfold Hour; lia).
  rewrite lookup_insert_Some, lookup_singleton_Some.
  intros [[_ <-]|[_ [_ <-]]]; cbn; lia.
Qed.

Lemma mutate_timestamps (c : Mutation) (w : World) :
  timestamps_ok wall w →
  ∃ w', mutate wall Format_RFC3339 c w = Done tt w' ∧ timestamps_ok wall w'.
Proof.
  intros Hok. destruct c as [req|req|req]; unfold mutate, bind.
  - unfold UserHandler_CreateUser. rewrite CreateUser_run.
    eexists. split; [reflexivity|].
    intros id u. cbn [users ticks].
    pose proof (wall_mono (ticks w) (S (ticks w))).
    pose proof (wall_mono (S (ticks w)) (S (S (ticks w)))).
    rewrite lookup_insert_Some. intros [[_ <-]|[_ Hu]]; cbn; [lia|].
    apply Hok in Hu. lia.
  - unfold UserHandler_UpdateUser.
    destruct (users w !! proto.UpdateUserRequest.Id req) as [u0|] eqn:Hreq.
    + rewrite (UpdateUser_run _ _ _ Hreq).
      eexists. split; [reflexivity|].
      intros id u. cbn [users ticks].
      pose proof (wall_mono (ticks w) (S (ticks w))).
      apply Hok in Hreq.
      rewrite lookup_insert_Some. intros [[_ <-]|[_ Hu]]; cbn; [lia|].
      apply Hok in Hu. lia.
    + rewrite (UpdateUser_absent _ _ Hreq). eauto.
  - unfold UserHandler_DeleteUser.
    destruct (users w !! proto.DeleteUserRequest.Id req) as [u0|] eqn:Hreq.
    + rewrite (DeleteUser_run _ _ _ Hreq).
      eexists. split; [reflexivity|].
      intros id u. cbn [users ticks].
      rewrite lookup_delete_Some. intros [_ Hu]. exact (Hok _ _ Hu).
    + destruct req as [id]. cbn in Hreq.
      rewrite (DeleteUser_absent id w Hreq). eauto.
Qed.

Lemma for_each_mutate_timestamps (cs : list Mutation) (w : World) :
  timestamps_ok wall w →
  ∃ w', for_each (mutate wall Format_RFC3339) cs w = Done tt w'
        ∧ timestamps_ok wall w'.
Proof.
  revert w. induction cs as [|c cs IH]; intros w Hok.
  - exists w. split; [reflexivity|assumption].
  - destruct (mutate_timestamps c w Hok) as (w1 & Hrun & Hok1).
    destruct (IH w1 Hok1) as (w2 & Hrest & Hok2).
    exists w2. split; [|assumption].
    cbn [for_each]. unfold bind. rewrite Hrun. exact Hrest.
Qed.

(** C8. Under a clock that never reads earlier than it did before, a
    process that builds the service and then serves any sequence of
    Create, Update and Delete calls does not panic, and every record live
    in the store at the end has [createdAt ≤ updatedAt]. *)
Theorem timestamps_ordered (cs : list Mutation) (w0 : World) :
  ∃ w : World,
    run wall Format_RFC3339 cs w0 = Done tt w
    ∧ ∀ (id : string) (u : User),
        users w !! id = Some u → CreatedAt u ≤ UpdatedAt u.
Proof.
  destruct (NewUserService_timestamps w0) as (w1 & Hnew & Hok1).
  destruct (for_each_mutate_timestamps cs w1 Hok1) as (w2 & Hrun & Hok2).
  exists w2. split.
  - unfold run, bind. rewrite Hnew. exact Hrun.
  - intros id u Hu. by apply Hok2 in Hu as [? _].
Qed.

End Properties.

(** ** The service on the sample data *)

Lemma seeded_fresh : NewUserService ticking boot = Done tt seeded.
Proof. rewrite NewUserService_run. reflexivity. Qed.

Example Get_seeded :
  GetUser show (proto.GetUserRequest.mk "1") seeded =
    Done (proto.GetUserResponse.mk
            (Some (proto.User.mk "1" "John Doe" "john.doe@example.com" 30
                     "-86400000000000" "-86399999999999"))
            true "User retrieved successfully", None) seeded.
Proof. reflexivity. Qed.

Example Create_seeded :
  ∃ w : World,
    CreateUser ticking show (proto.CreateUserRequest.mk "A" "a@x.com" 20) seeded =
      Done (proto.CreateUserResponse.mk
              (Some (proto.User.mk "3" "A" "a@x.com" 20 "4" "5"))
              true "User created successfully", None) w
    ∧ size (users w) = 3%nat.
Proof. rewrite CreateUser_run. eexists. split; [|cbn [users]]; reflexivity. Qed.

Example Update_seeded_name_only :
  ∃ w : World,
    UpdateUser ticking show (proto.UpdateUserRequest.mk "1" "New" EmptyString 0) seeded =
      Done (proto.UpdateUserResponse.mk
              (Some (proto.User.mk "1" "New" "john.doe@example.com" 30
                       "-86400000000000" "4"))
              true "User updated successfully", None) w
    ∧ users w !! "1" = Some (with_UpdatedAt (with_Name john "New") 4).
Proof.
  rewrite (UpdateUser_run ticking show _ seeded john) by reflexivity.
  eexists. split; [|cbn [users]]; reflexivity.
Qed.

Example List_seeded_first_page :
  ListUsers show map_to_list (proto.ListUsersRequest.mk 1 1) seeded =
    Done (proto.ListUsersResponse.mk [convertToProtoUser show john] 2 true
            "Users retrieved successfully", None) seeded.
Proof. reflexivity. Qed.

Example List_seeded_third_page :
  ListUsers show map_to_list (proto.ListUsersRequest.mk 3 1) seeded =
    Done (proto.ListUsersResponse.mk [] 2 true
            "No users found for the given page", None) seeded.
Proof. reflexivity. Qed.

(** ** Where the code leaves the specification *)

(** C4. A List request with page 0 and limit 1 makes the handler panic in
    every world and under every iteration order: [start] is -1, which passes
    the test [start >= len(allUsers)], and the slice expression
    [allUsers[-1:0]] is out of bounds.  A negative limit does the same on the
    seeded store ([allUsers[0:-1]]).  No response envelope is returned. *)
Theorem ListUsers_panics :
  (∀ (fmt : Z → string) (range : gmap string User → list (string * User))
     (w : World),
     UserHandler_ListUsers fmt range (proto.ListUsersRequest.mk 0 1) w =
       Panic "slice bounds out of range")
  ∧ UserHandler_ListUsers show map_to_list (proto.ListUsersRequest.mk 1 (-1))
      seeded = Panic "slice bounds out of range"
  ∧ response
      (UserHandler_ListUsers show map_to_list (proto.ListUsersRequest.mk 0 1)
         seeded) = None.
Proof.
  split_and!; [|reflexivity|reflexivity].
  intros fmt range w. go_unfold. cbn [proto.ListUsersRequest.Page
    proto.ListUsersRequest.Limit].
  change (int (int32_mul (int32_sub 0 1) 1)) with (-1).
  change (int_add (-1) (int 1)) with 0.
  rewrite decide_False by lia. rewrite decide_False by lia.
  unfold slice. rewrite decide_False by lia. reflexivity.
Qed.

(** C5. After the seeded store has lost record "1", the live count is 1 and
    a Create allocates the id "2": the record of Jane Smith, live under "2",
    is replaced by the new record, and the store still holds one record. *)
Theorem CreateUser_replaces_live_record :
  ∃ w1 w2 : World,
    run ticking show [DoDelete (proto.DeleteUserRequest.mk "1")] boot
      = Done tt w1
    ∧ users w1 !! "2" = Some jane
    ∧ CreateUser ticking show (proto.CreateUserRequest.mk "A" "a@x.com" 20) w1
      = Done (proto.CreateUserResponse.mk
                (Some (proto.User.mk "2" "A" "a@x.com" 20 "4" "5"))
                true "User created successfully", None) w2
    ∧ users w2 !! "2" = Some (mkUser "2" "A" "a@x.com" 20 4 5)
    ∧ size (users w2) = 1%nat.
Proof.
  exists (mkWorld {[ "2" := jane ]} 4),
         (mkWorld {[ "2" := mkUser "2" "A" "a@x.com" 20 4 5 ]} 6).
  split_and!; reflexivity.
Qed.

(** C1, as stated, fails.  Under the ticking clock a Create on the seeded
    store stores a record whose createdAt is 4 and whose updatedAt is 5, and
    returns them so: the two fields are not set to one current time. *)
Lemma Create_timestamps_differ :
  ∃ (user : User) (pu : proto.User.t) (w' : World),
    CreateUser ticking show create_A seeded =
      Done (proto.CreateUserResponse.mk (Some pu) true
              "User created successfully", None) w'
    ∧ users w' !! "3" = Some user
    ∧ CreatedAt user = 4
    ∧ UpdatedAt user = 5
    ∧ UpdatedAt user ≠ CreatedAt user
    ∧ proto.User.CreatedAt pu = "4"
    ∧ proto.User.UpdatedAt pu = "5"
    ∧ ∀ now : Z, ¬ (CreatedAt user = now ∧ UpdatedAt user = now).
Proof.
  exists (mkUser "3" "A" "a@x.com" 20 4 5),
         (proto.User.mk "3" "A" "a@x.com" 20 "4" "5"),
         (mkWorld (<["3" := mkUser "3" "A" "a@x.com" 20 4 5]> (users seeded)) 6).
  split_and!.
  - rewrite CreateUser_run. reflexivity.
  - cbn [users]. apply lookup_insert_eq.
  - reflexivity.
  - reflexivity.
  - cbn. lia.
  - reflexivity.
  - reflexivity.
  - cbn. intros now [H4 H5]. lia.
Qed.

(** C2, as stated, fails.  On the seeded store, page 0 with limit 1 and page 1
    with limit -1 end in a panic where the specification describes a response;
    page 65537 with limit 65536 has [(page-1)*limit = 2^32 ≥ total], for which
    the specification describes the empty page, but the 32-bit product is 0
    and both records are returned. *)
Lemma ListUsers_not_as_specified :
  (ListUsers show map_to_list (proto.ListUsersRequest.mk 0 1) seeded
     = Panic "slice bounds out of range"
   ∧ List_specified show map_to_list (proto.ListUsersRequest.mk 0 1) seeded
     = Done (proto.ListUsersResponse.mk [] 2 true
               "Users retrieved successfully", None) seeded)
  ∧ (ListUsers show map_to_list (proto.ListUsersRequest.mk 1 (-1)) seeded
       = Panic "slice bounds out of range"
     ∧ List_specified show map_to_list (proto.ListUsersRequest.mk 1 (-1)) seeded
       = Done (proto.ListUsersResponse.mk [] 2 true
                 "Users retrieved successfully", None) seeded)
  ∧ (ListUsers show map_to_list (proto.ListUsersRequest.mk 65537 65536) seeded
       = Done (proto.ListUsersResponse.mk
                 [convertToProtoUser show john; convertToProtoUser show jane]
                 2 true "Users retrieved successfully", None) seeded
     ∧ List_specified show map_to_list (proto.ListUsersRequest.mk 65537 65536)
         seeded
       = Done (proto.ListUsersResponse.mk [] 2 true
                 "No users found for the given page", None) seeded).
Proof. split_and!; reflexivity. Qed.

(** C7, as stated, fails.  Under the ticking clock the seeded record "1" has
    an updatedAt one nanosecond after its createdAt, and the store is not the
    specified one for any start time. *)
Lemma seed_updatedAt_differs :
  ∃ (w : World) (u : User),
    NewUserService ticking boot = Done tt w
    ∧ users w !! "1" = Some u
    ∧ CreatedAt u = 0 - 24 * Hour
    ∧ UpdatedAt u = 1 - 24 * Hour
    ∧ UpdatedAt u ≠ CreatedAt u
    ∧ ∀ start : Z, users w ≠ seed_specified start.
Proof.
  exists seeded, john. split_and!.
  - apply seeded_fresh.
  - reflexivity.
  - reflexivity.
  - reflexivity.
  - cbn. lia.
  - intros start Heq. apply (f_equal (lookup "1")) in Heq.
    unfold seeded, seed_specified in Heq. cbn [users] in Heq.
    rewrite !lookup_insert_eq in Heq.
    injection Heq as Hc Hu. lia.
Qed.

(** ** Instances of the conditional properties *)

Lemma ListUsers_pages_witness :
  ListUsers show map_to_list (proto.ListUsersRequest.mk 1 1) seeded
  = List_specified show map_to_list (proto.ListUsersRequest.mk 1 1) seeded.
Proof.
  apply (ListUsers_pages show map_to_list (proto.ListUsersRequest.mk 1 1) seeded).
  - reflexivity.
  - unfold is_int32; simpl; lia.
  - unfold is_int32; simpl; lia.
  - simpl; lia.
  - simpl; lia.
  - vm_compute; reflexivity.
Defined.

Lemma UpdateUser_partial_witness :
  users seeded !! "1" = Some john
  ∧ ∃ (user : User) (pu : proto.User.t) (w' : World),
      UpdateUser ticking show (proto.UpdateUserRequest.mk "1" "New" EmptyString 0) seeded =
        Done (proto.UpdateUserResponse.mk (Some pu) true
                "User updated successfully", None) w'
      ∧ users w' !! "1" = Some user
      ∧ Name user = "New" ∧ Email user = Email john ∧ Age user = Age john
      ∧ UpdatedAt user = 4
      ∧ proto.User.Id pu = "1"
      ∧ proto.User.Name pu = "New"
      ∧ proto.User.Email pu = "john.doe@example.com"
      ∧ proto.User.Age pu = 30
      ∧ proto.User.CreatedAt pu = "-86400000000000"
      ∧ proto.User.UpdatedAt pu = "4".
Proof.
  split; [reflexivity|].
  destruct (UpdateUser_partial ticking show
              (proto.UpdateUserRequest.mk "1" "New" EmptyString 0) seeded john
              eq_refl)
    as (user & pu & w' & Hrun & _ & Hstored & Hname & _ & _ & Hemail & _
        & Hage & _ & _ & Hup & Hpid & Hpname & Hpemail & Hpage & Hpc & Hpu).
  assert (Hn : Name user = "New") by (apply Hname; discriminate).
  assert (He : Email user = Email john) by (apply Hemail; reflexivity).
  assert (Ha : Age user = Age john) by (apply Hage; simpl; lia).
  exists user, pu, w'. split_and!.
  - exact Hrun.
  - exact Hstored.
  - exact Hn.
  - exact He.
  - exact Ha.
  - exact Hup.
  - exact Hpid.
  - rewrite Hpname. exact Hn.
  - rewrite Hpemail. exact He.
  - rewrite Hpage. exact Ha.
  - exact Hpc.
  - exact Hpu.
Defined.

Lemma absent_id_not_found_witness :
  users seeded !! "999" = None
  ∧ GetUser show (proto.GetUserRequest.mk "999") seeded =
      Done (proto.GetUserResponse.mk None false "User not found", None) seeded
  ∧ DeleteUser (proto.DeleteUserRequest.mk "999") seeded =
      Done (proto.DeleteUserResponse.mk false "User not found", None) seeded.
Proof.
  split; [reflexivity|].
  destruct (absent_id_not_found ticking show "999" "N" "n@x.com" 7 seeded
              eq_refl) as (Hget & _ & Hdel & _).
  split; [exact Hget | exact Hdel].
Defined.

Lemma DeleteUser_removes_witness :
  users seeded !! "2" = Some jane
  ∧ ∃ w' : World,
      DeleteUser (proto.DeleteUserRequest.mk "2") seeded =
        Done (proto.DeleteUserResponse.mk true "User deleted successfully", None) w'
      ∧ S (size (users w')) = size (users seeded)
      ∧ GetUser show (proto.GetUserRequest.mk "2") w' =
          Done (proto.GetUserResponse.mk None false "User not found", None) w'.
Proof.
  split; [reflexivity|].
  destruct (DeleteUser_removes show "2" seeded jane eq_refl)
    as (w' & Hrun & _ & Hsize & _ & Hget).
  exists w'. split_and!; assumption.
Defined.

Lemma timestamps_ordered_witness :
  (∀ i j : nat, (i ≤ j)%nat → ticking i ≤ ticking j)
  ∧ ∃ w : World,
      run ticking show
        [ DoCreate (proto.CreateUserRequest.mk "A" "a@x.com" 20);
          DoUpdate (proto.UpdateUserRequest.mk "1" "New" EmptyString 0);
          DoDelete (proto.DeleteUserRequest.mk "2") ] boot = Done tt w
      ∧ ∀ (id : string) (u : User),
          users w !! id = Some u → CreatedAt u ≤ UpdatedAt u.
Proof.
  split.
  - unfold ticking. lia.
  - apply (timestamps_ordered ticking show).
    unfold ticking. lia.
Defined.

(** ** How the operations compose *)

Section Composition.

Variable wall : nat → Z.
Variable Format_RFC3339 : Z → string.

Abbreviation convert' := (convertToProtoUser Format_RFC3339).

Lemma GetUser_live (id : string) (w : World) (u : User) :
  users w !! id = Some u →
  GetUser Format_RFC3339 (proto.GetUserRequest.mk id) w =
    Done (proto.GetUserResponse.mk (Some (convert' u)) true
            "User retrieved successfully", None) w.
Proof. intros Hu. go_unfold. simpl. rewrite Hu. reflexivity. Qed.

(** X1. A Get of the id that a Create has just returned finds the record:
    it answers [Success = true] with the very user message the Create
    returned, and changes nothing. *)
Theorem Create_then_Get (req : proto.CreateUserRequest.t) (w : World) :
  ∃ (pu : proto.User.t) (w' : World),
    CreateUser wall Format_RFC3339 req w =
      Done (proto.CreateUserResponse.mk (Some pu) true
              "User created successfully", None) w'
    ∧ GetUser Format_RFC3339 (proto.GetUserRequest.mk (proto.User.Id pu)) w' =
        Done (proto.GetUserResponse.mk (Some pu) true
                "User retrieved successfully", None) w'.
Proof.
  eexists _, _. split; [apply CreateUser_run|].
  apply GetUser_live. cbn. apply lookup_insert_eq.
Qed.

(** X2. A Get of the id of an Update that has just been served agrees with
    the Update: both carry the same user message and the same success flag,
    whether the id was live (the updated record) or not (no record). *)
Theorem Update_then_Get (req : proto.UpdateUserRequest.t) (w : World) :
  ∃ (r : proto.UpdateUserResponse.t) (g : proto.GetUserResponse.t)
    (w' : World),
    UpdateUser wall Format_RFC3339 req w = Done (r, None) w'
    ∧ GetUser Format_RFC3339
        (proto.GetUserRequest.mk (proto.UpdateUserRequest.Id req)) w'
      = Done (g, None) w'
    ∧ proto.GetUserResponse.User g = proto.UpdateUserResponse.User r
    ∧ proto.GetUserResponse.Success g = proto.UpdateUserResponse.Success r
    ∧ (proto.UpdateUserResponse.Success r = true
       ↔ is_Some (users w !! proto.UpdateUserRequest.Id req)).
Proof.
  destruct (users w !! proto.UpdateUserRequest.Id req) as [u|] eqn:Hreq.
  - eexists _, _, _. split; [apply (UpdateUser_run _ _ _ _ _ Hreq)|].
    split; [apply GetUser_live; cbn; apply lookup_insert_eq|].
    cbn. split_and!; [reflexivity|reflexivity|]. split; eauto.
  - eexists _, _, _. split; [apply (UpdateUser_absent _ _ _ _ Hreq)|].
    split; [apply (GetUser_absent _ _ _ Hreq)|].
    cbn. split_and!; [reflexivity|reflexivity|].
    split; [discriminate|]. intros [? ?]; discriminate.
Qed.

(** X3. When the id that Create allocates is free, deleting the record just
    created gives back the store as it was before the Create. *)
Theorem Create_then_Delete (req : proto.CreateUserRequest.t) (w : World)
    (Hfree : users w !! pretty (Z.of_nat (size (users w)) + 1) = None) :
  ∃ (pu : proto.User.t) (w1 w2 : World),
    CreateUser wall Format_RFC3339 req w =
      Done (proto.CreateUserResponse.mk (Some pu) true
              "User created successfully", None) w1
    ∧ DeleteUser (proto.DeleteUserRequest.mk (proto.User.Id pu)) w1 =
        Done (proto.DeleteUserResponse.mk true "User deleted successfully",
              None) w2
    ∧ users w2 = users w.
Proof.
  set (id := pretty (Z.of_nat (size (users w)) + 1)) in *.
  set (user := mkUser id (proto.CreateUserRequest.Name req)
                 (proto.CreateUserRequest.Email req)
                 (proto.CreateUserRequest.Age req)
                 (wall (ticks w)) (wall (S (ticks w)))).
  exists (convert' user),
         (mkWorld (<[id := user]> (users w)) (S (S (ticks w)))),
         (mkWorld (delete id (<[id := user]> (users w))) (S (S (ticks w)))).
  split_and!.
  - apply CreateUser_run.
  - change (proto.User.Id (convert' user)) with id.
    rewrite (DeleteUser_run (proto.DeleteUserRequest.mk id) _ user)
      by apply lookup_insert_eq.
    reflexivity.
  - cbn [users]. by apply delete_insert_id.
Qed.

(** X4. Create adds the allocated id to the key set and nothing else.  When
    that id was free the live count grows by one; when it was live the count
    stays and the record that was under it is gone, replaced by the new
    one. *)
Theorem Create_key_set (req : proto.CreateUserRequest.t) (w : World) :
  ∃ (resp : proto.CreateUserResponse.t) (w' : World),
    let id := pretty (Z.of_nat (size (users w)) + 1) in
    CreateUser wall Format_RFC3339 req w = Done (resp, None) w'
    ∧ dom (users w') = {[ id ]} ∪ dom (users w)
    ∧ (users w !! id = None → size (users w') = S (size (users w)))
    ∧ (∀ old : User,
         users w !! id = Some old →
         size (users w') = size (users w)
         ∧ dom (users w') = dom (users w)
         ∧ users w' !! id =
             Some (mkUser id (proto.CreateUserRequest.Name req)
                     (proto.CreateUserRequest.Email req)
                     (proto.CreateUserRequest.Age req)
                     (wall (ticks w)) (wall (S (ticks w))))).
Proof.
  eexists _, _. cbn zeta. split; [apply CreateUser_run|]. cbn [users].
  split_and!.
  - apply dom_insert_L.
  - intros Hfree. by apply map_size_insert_None.
  - intros old Hold. split_and!.
    + apply map_size_insert_Some. eauto.
    + apply dom_insert_lookup_L. eauto.
    + apply lookup_insert_eq.
Qed.

(** X5. Update and Delete touch one key only.  Update, whether it finds the
    id or not, keeps the key set and the live count, and every record under
    another id; Delete keeps every record under another id. *)
Theorem Update_Delete_frame (w : World) :
  (∀ req : proto.UpdateUserRequest.t,
     ∃ resp w',
       UpdateUser wall Format_RFC3339 req w = Done (resp, None) w'
       ∧ dom (users w') = dom (users w)
       ∧ size (users w') = size (users w)
       ∧ ∀ id : string,
           id ≠ proto.UpdateUserRequest.Id req →
           users w' !! id = users w !! id)
  ∧ (∀ req : proto.DeleteUserRequest.t,
       ∃ resp w',
         DeleteUser req w = Done (resp, None) w'
         ∧ ticks w' = ticks w
         ∧ ∀ id : string,
             id ≠ proto.DeleteUserRequest.Id req →
             users w' !! id = users w !! id).
Proof.
  split; intros req.
  - destruct (users w !! proto.UpdateUserRequest.Id req) as [u|] eqn:Hreq.
    + eexists _, _. split; [apply (UpdateUser_run _ _ _ _ _ Hreq)|].
      cbn [users]. split_and!.
      * apply dom_insert_lookup_L. eauto.
      * apply map_size_insert_Some. eauto.
      * intros id Hne. by rewrite lookup_insert_ne.
    + eexists _, _. split; [apply (UpdateUser_absent _ _ _ _ Hreq)|]. auto.
  - destruct (users w !! proto.DeleteUserRequest.Id req) as [u|] eqn:Hreq.
    + eexists _, _. split; [apply (DeleteUser_run _ _ _ Hreq)|].
      cbn [users ticks]. split; [reflexivity|].
      intros id Hne. by rewrite lookup_delete_ne.
    + destruct req as [id0]. cbn in Hreq.
      eexists _, _. split; [apply (DeleteUser_absent _ _ Hreq)|]. auto.
Qed.

End Composition.

(** ** Invariants of a serving process *)

Section Invariants.

Variable wall : nat → Z.
Variable Format_RFC3339 : Z → string.

(** List reads the store and leaves the world alone. *)
Lemma ListUsers_world (range : gmap string User → list (string * User))
    (req : proto.ListUsersRequest.t) (w w' : World)
    (r : proto.ListUsersResponse.t * option error) :
  ListUsers Format_RFC3339 range req w = Done r w' → w' = w.
Proof.
  go_unfold. case_decide; [congruence|].
  destruct (slice _ _ _); [congruence|discriminate].
Qed.

Lemma handle_keyed (c : Call) (w w' : World) :
  keyed_by_id (users w) →
  handle wall Format_RFC3339 c w = Done tt w' →
  keyed_by_id (users w').
Proof.
  intros Hkey. destruct c as [req|req|req|req|range req]; unfold handle, bind.
  - unfold UserHandler_GetUser.
    destruct (proj1 (four_operations_return wall Format_RFC3339 w) req)
      as [resp ->].
    unfold ret. by intros [= <-].
  - unfold UserHandler_CreateUser. rewrite CreateUser_run.
    unfold ret. intros [= <-]. cbn [users].
    intros id u. rewrite lookup_insert_Some.
    intros [[<- <-]|[_ Hu]]; [reflexivity|exact (Hkey _ _ Hu)].
  - unfold UserHandler_UpdateUser.
    destruct (users w !! proto.UpdateUserRequest.Id req) as [u0|] eqn:Hreq.
    + rewrite (UpdateUser_run _ _ _ _ _ Hreq).
      unfold ret. intros [= <-]. cbn [users].
      intros id u. rewrite lookup_insert_Some.
      intros [[Hid <-]|[_ Hu]]; [|exact (Hkey _ _ Hu)].
      cbn [ID]. rewrite <- Hid. exact (Hkey _ _ Hreq).
    + rewrite (UpdateUser_absent _ _ _ _ Hreq). unfold ret. by intros [= <-].
  - unfold UserHandler_DeleteUser.
    destruct (users w !! proto.DeleteUserRequest.Id req) as [u0|] eqn:Hreq.
    + rewrite (DeleteUser_run _ _ _ Hreq).
      unfold ret. intros [= <-]. cbn [users].
      intros id u. rewrite lookup_delete_Some. intros [_ Hu].
      exact (Hkey _ _ Hu).
    + destruct req as [id0]. cbn in Hreq.
      rewrite (DeleteUser_absent _ _ Hreq). unfold ret. by intros [= <-].
  - unfold UserHandler_ListUsers.
    destruct (ListUsers Format_RFC3339 range req w) as [r w1|] eqn:Hlist;
      [|discriminate].
    apply ListUsers_world in Hlist as ->. unfold ret. by intros [= <-].
Qed.

Lemma for_each_handle_keyed (cs : list Call) (w w' : World) :
  keyed_by_id (users w) →
  for_each (handle wall Format_RFC3339) cs w = Done tt w' →
  keyed_by_id (users w').
Proof.
  revert w. induction cs as [|c cs IH]; intros w Hkey; cbn [for_each].
  - unfold ret. by intros [= <-].
  - unfold bind.
    destruct (handle wall Format_RFC3339 c w) as [[] w1|] eqn:Hc;
      [|discriminate].
    intros Hrest. apply (IH w1); [|exact Hrest].
    by apply (handle_keyed c w).
Qed.

(** X6. In a process that has built the service and served any calls (of
    the five kinds) without a panic, every live record sits under its own
    id: the [ID] field of the record found under a key is that key. *)
Theorem served_records_keyed_by_id (cs : list Call) (w0 w : World)
    (Hserved : serve wall Format_RFC3339 cs w0 = Done tt w) :
  ∀ (id : string) (u : User), users w !! id = Some u → ID u = id.
Proof.
  revert Hserved. unfold serve, bind. rewrite NewUserService_run.
  apply for_each_handle_keyed. cbn [users].
  intros id u. rewrite lookup_insert_Some, lookup_singleton_Some.
  by intros [[<- <-]|[_ [<- <-]]].
Qed.

(** *** Ids without deletions *)

Lemma dense_next_free (m : gmap string User) :
  dense m → m !! pretty (Z.of_nat (size m) + 1) = None.
Proof.
  intros Hdense. apply eq_None_not_Some. intros Hlive.
  apply Hdense in Hlive as (k & Hk & Heq).
  apply (inj pretty) in Heq. lia.
Qed.

Lemma dense_insert_next (m : gmap string User) (u : User) :
  dense m → dense (<[pretty (Z.of_nat (size m) + 1) := u]> m).
Proof.
  intros Hdense id.
  rewrite map_size_insert_None by by apply dense_next_free.
  rewrite lookup_insert_is_Some, (Hdense id). split.
  - intros [<-|[_ (k & Hk & ->)]].
    + exists (Z.of_nat (size m) + 1). split; [lia|reflexivity].
    + exists k. split; [lia|reflexivity].
  - intros (k & Hk & ->).
    destruct (decide (k = Z.of_nat (size m) + 1)) as [->|Hne].
    + by left.
    + right. split.
      * intros Heq. apply (inj pretty) in Heq. congruence.
      * exists k. split; [lia|reflexivity].
Qed.

Lemma dense_insert_live (m : gmap string User) (id : string) (u : User) :
  is_Some (m !! id) → dense m → dense (<[id := u]> m).
Proof.
  intros Hlive Hdense i.
  rewrite map_size_insert_Some by done.
  rewrite lookup_insert_is_Some, <- (Hdense i). split.
  - intros [<-|[_ Hi]]; assumption.
  - intros Hi. destruct (decide (id = i)); [by left|by right].
Qed.

Lemma mutate_dense (c : Mutation) (w : World) :
  is_delete c = false → dense (users w) →
  ∃ w', mutate wall Format_RFC3339 c w = Done tt w'
        ∧ dense (users w')
        ∧ size (users w') =
            ((if is_create c then 1 else 0) + size (users w))%nat.
Proof.
  intros Hnd Hdense. destruct c as [req|req|req]; [| |discriminate];
    unfold mutate, bind.
  - unfold UserHandler_CreateUser. rewrite CreateUser_run.
    eexists. split; [reflexivity|]. cbn [users is_create]. split.
    + by apply dense_insert_next.
    + apply map_size_insert_None. by apply dense_next_free.
  - unfold UserHandler_UpdateUser.
    destruct (users w !! proto.UpdateUserRequest.Id req) as [u0|] eqn:Hreq.
    + rewrite (UpdateUser_run _ _ _ _ _ Hreq).
      eexists. split; [reflexivity|]. cbn [users is_create]. split.
      * apply dense_insert_live; eauto.
      * apply map_size_insert_Some. eauto.
    + rewrite (UpdateUser_absent _ _ _ _ Hreq). eauto.
Qed.

Lemma for_each_mutate_dense (cs : list Mutation) (w : World) :
  existsb is_delete cs = false → dense (users w) →
  ∃ w', for_each (mutate wall Format_RFC3339) cs w = Done tt w'
        ∧ dense (users w')
        ∧ size (users w') =
            (length (filter (λ c, is_create c = true) cs) + size (users w))%nat.
Proof.
  revert w. induction cs as [|c cs IH]; intros w Hnd Hdense.
  - exists w. split_and!; [reflexivity|assumption|reflexivity].
  - cbn [existsb] in Hnd. apply orb_false_iff in Hnd as [Hc Hcs].
    destruct (mutate_dense c w Hc Hdense) as (w1 & Hrun & Hd1 & Hs1).
    destruct (IH w1 Hcs Hd1) as (w2 & Hrest & Hd2 & Hs2).
    exists w2. split_and!; [|assumption|].
    + cbn [for_each]. unfold bind. rewrite Hrun. exact Hrest.
    + rewrite Hs2, Hs1, filter_cons.
      destruct (is_create c); [rewrite decide_True by done|
                               rewrite decide_False by done]; cbn; lia.
Qed.

Lemma seed_dense (a b : User) : dense {[ "1" := a; "2" := b ]}.
Proof.
  intros id.
  assert (Hsize : size ({[ "1" := a; "2" := b ]} : gmap string User) = 2%nat).
  { rewrite map_size_insert_None by (by rewrite lookup_singleton_ne).
    by rewrite map_size_singleton. }
  rewrite Hsize, lookup_insert_is_Some, lookup_singleton_is_Some. split.
  - intros [<-|[_ <-]]; [exists 1|exists 2]; (split; [lia|reflexivity]).
  - intros (k & Hk & ->).
    assert (k = 1 ∨ k = 2) as [-> | ->] by lia; [by left|].
    right. split; [discriminate|reflexivity].
Qed.

(** X7. As long as no Delete is served, the ids of the live records are
    the decimal numerals 1, ..., n with n the live count, and n is 2 plus the
    number of Create calls served: every Create was given an id that was
    free, and none replaced a record. *)
Theorem ids_dense_without_delete (cs : list Mutation) (w0 : World)
    (Hnodelete : existsb is_delete cs = false) :
  ∃ w : World,
    run wall Format_RFC3339 cs w0 = Done tt w
    ∧ size (users w) =
        (length (filter (λ c, is_create c = true) cs) + 2)%nat
    ∧ ∀ id : string,
        is_Some (users w !! id)
        ↔ ∃ k : Z, 1 ≤ k ≤ Z.of_nat (size (users w)) ∧ id = pretty k.
Proof.
  unfold run, bind. rewrite NewUserService_run. cbv beta iota.
  match goal with
  | |- context [for_each _ cs ?w1] =>
      destruct (for_each_mutate_dense cs w1 Hnodelete (seed_dense _ _))
        as (w & Hrun & Hdense & Hsize)
  end.
  exists w. split; [exact Hrun|]. split; [|exact Hdense].
  rewrite Hsize. cbn [users].
  rewrite map_size_insert_None by (by rewrite lookup_singleton_ne).
  by rewrite map_size_singleton.
Qed.

End Invariants.

(** ** Ids after a deletion *)

Section Collisions.

Variable wall : nat → Z.
Variable Format_RFC3339 : Z → string.

Lemma size_delete_live (m : gmap string User) (id : string) (u : User) :
  m !! id = Some u → S (size (delete id m)) = size m.
Proof.
  intros Hlive. rewrite map_size_delete, Hlive.
  destruct (size m) eqn:Hsz; [|reflexivity].
  apply map_size_empty_inv in Hsz. rewrite Hsz in Hlive.
  by rewrite lookup_empty in Hlive.
Qed.

(** X8. Once the id that Create would allocate is live, the store cannot
    grow any more: any number of Creates in a row all rewrite that one id,
    so the live count and the key set stay as they are and the record that
    was under the id is lost, while the records under the other ids are
    untouched. *)
Theorem Creates_stuck_on_live_id (reqs : list proto.CreateUserRequest.t)
    (w : World)
    (Hlive : is_Some (users w !! pretty (Z.of_nat (size (users w)) + 1))) :
  ∃ w' : World,
    for_each (mutate wall Format_RFC3339) (DoCreate <$> reqs) w = Done tt w'
    ∧ size (users w') = size (users w)
    ∧ dom (users w') = dom (users w)
    ∧ (∀ id : string,
         id ≠ pretty (Z.of_nat (size (users w)) + 1) →
         users w' !! id = users w !! id)
    ∧ (∀ req : proto.CreateUserRequest.t,
         last reqs = Some req →
         ∃ u : User,
           users w' !! pretty (Z.of_nat (size (users w)) + 1) = Some u
           ∧ Name u = proto.CreateUserRequest.Name req
           ∧ Email u = proto.CreateUserRequest.Email req
           ∧ Age u = proto.CreateUserRequest.Age req).
Proof.
  revert w Hlive. induction reqs as [|req reqs IH]; intros w Hlive.
  - exists w. split_and!; try done.
  - set (id := pretty (Z.of_nat (size (users w)) + 1)) in *.
    set (user := mkUser id (proto.CreateUserRequest.Name req)
                   (proto.CreateUserRequest.Email req)
                   (proto.CreateUserRequest.Age req)
                   (wall (ticks w)) (wall (S (ticks w)))).
    set (w1 := mkWorld (<[id := user]> (users w)) (S (S (ticks w)))).
    assert (Hsize1 : size (users w1) = size (users w))
      by (by apply map_size_insert_Some).
    assert (Hlive1 : is_Some (users w1 !! pretty (Z.of_nat (size (users w1)) + 1))).
    { rewrite Hsize1. fold id. cbn [w1 users]. rewrite lookup_insert_eq. eauto. }
    destruct (IH w1 Hlive1) as (w' & Hrun & Hsize & Hdom & Hframe & Hlast).
    rewrite Hsize1 in Hframe, Hlast. fold id in Hframe, Hlast.
    exists w'. split_and!.
    + cbn [fmap list_fmap for_each]. unfold mutate at 1, bind.
      unfold UserHandler_CreateUser. rewrite CreateUser_run. exact Hrun.
    + congruence.
    + rewrite Hdom. cbn [w1 users]. by apply dom_insert_lookup_L.
    + intros i Hne. rewrite (Hframe i Hne). cbn [w1 users].
      by rewrite lookup_insert_ne.
    + intros req' Hreq'. destruct reqs as [|req2 reqs].
      * cbn in Hreq'. injection Hreq' as <-.
        cbn in Hrun. injection Hrun as <-.
        exists user. cbn [w1 users]. rewrite lookup_insert_eq. done.
      * apply Hlast. exact Hreq'.
Qed.

(** X9. In a store whose ids are 1, ..., n, deleting a live record and then
    creating one always allocates the id n.  Unless the deleted record was
    number n itself, record n is still live at that moment and the Create
    replaces it: the store ends with n-1 records and neither the deleted
    nor the replaced record.  When the deleted record was number n, the
    Create takes its place and every other record is untouched. *)
Theorem Delete_then_Create (id : string) (req : proto.CreateUserRequest.t)
    (w : World) (u : User)
    (Hdense : dense (users w)) (Hlive : users w !! id = Some u) :
  let top := pretty (Z.of_nat (size (users w))) in
  ∃ (w1 w2 : World) (resp : proto.CreateUserResponse.t),
    DeleteUser (proto.DeleteUserRequest.mk id) w =
      Done (proto.DeleteUserResponse.mk true "User deleted successfully",
            None) w1
    ∧ CreateUser wall Format_RFC3339 req w1 = Done (resp, None) w2
    ∧ users w2 !! top =
        Some (mkUser top (proto.CreateUserRequest.Name req)
                (proto.CreateUserRequest.Email req)
                (proto.CreateUserRequest.Age req)
                (wall (ticks w)) (wall (S (ticks w))))
    ∧ (id ≠ top →
       ∃ old : User,
         users w1 !! top = Some old
         ∧ S (size (users w2)) = size (users w)
         ∧ users w2 !! id = None)
    ∧ (id = top →
       size (users w2) = size (users w)
       ∧ ∀ i : string, i ≠ id → users w2 !! i = users w !! i).
Proof.
  intros top.
  pose proof (size_delete_live _ _ _ Hlive) as Hsize.
  assert (Hnext : pretty (Z.of_nat (size (delete id (users w))) + 1) = top).
  { unfold top. f_equal. lia. }
  assert (Htop : is_Some (users w !! top)).
  { apply Hdense. exists (Z.of_nat (size (users w))). split; [lia|done]. }
  eexists _, _, _.
  split; [apply (DeleteUser_run (proto.DeleteUserRequest.mk id) w u Hlive)|].
  split; [apply CreateUser_run|].
  cbn [users ticks proto.DeleteUserRequest.Id]. rewrite Hnext.
  split_and!.
  - apply lookup_insert_eq.
  - intros Hne. destruct Htop as [old Hold]. exists old. split_and!.
    + by rewrite lookup_delete_ne.
    + rewrite map_size_insert_Some, Hsize; [done|].
      rewrite lookup_delete_ne by done. eauto.
    + rewrite lookup_insert_ne by done. apply lookup_delete_eq.
  - intros ->. split.
    + rewrite map_size_insert_None by apply lookup_delete_eq. exact Hsize.
    + intros i Hne. rewrite lookup_insert_ne by done.
      by rewrite lookup_delete_ne.
Qed.

(** *** The timestamps of an update *)

Hypothesis wall_mono : ∀ i j : nat, (i ≤ j)%nat → wall i ≤ wall j.

(** X10. Under a clock that never reads earlier than before, in a process
    that has built the service and served Create, Update and Delete calls,
    an Update of a live record never moves its updatedAt backwards and
    leaves its createdAt as it was. *)
Theorem Update_moves_updatedAt_forward (cs : list Mutation) (w0 w : World)
    (req : proto.UpdateUserRequest.t) (u : User)
    (Hrun : run wall Format_RFC3339 cs w0 = Done tt w)
    (Hlive : users w !! proto.UpdateUserRequest.Id req = Some u) :
  ∃ (user : User) (resp : proto.UpdateUserResponse.t) (w' : World),
    UpdateUser wall Format_RFC3339 req w = Done (resp, None) w'
    ∧ users w' !! proto.UpdateUserRequest.Id req = Some user
    ∧ UpdatedAt u ≤ UpdatedAt user
    ∧ CreatedAt user = CreatedAt u
    ∧ CreatedAt user ≤ UpdatedAt user.
Proof.
  destruct (NewUserService_timestamps wall wall_mono w0) as (w1 & Hnew & Hok1).
  destruct (for_each_mutate_timestamps wall Format_RFC3339 wall_mono cs w1 Hok1)
    as (w2 & Hrest & Hok2).
  assert (w2 = w) as ->.
  { unfold run, bind in Hrun. rewrite Hnew, Hrest in Hrun. congruence. }
  destruct (Hok2 _ _ Hlive) as [Hcu Hut].
  eexists _, _, _. split; [apply (UpdateUser_run _ _ _ _ _ Hlive)|].
  cbn [users]. split; [apply lookup_insert_eq|]. cbn. lia.
Qed.

End Collisions.

(** ** Pages *)

Section Pages.

Variable Format_RFC3339 : Z → string.

Abbreviation convert'' := (convertToProtoUser Format_RFC3339).

(** The three ways a List call ends, by the 32-bit [start] it computes. *)
Lemma ListUsers_cases (range : gmap string User → list (string * User))
    (req : proto.ListUsersRequest.t) (w : World) :
  is_int32 (proto.ListUsersRequest.Page req) →
  is_int32 (proto.ListUsersRequest.Limit req) →
  let allUsers := (range (users w)).*2 in
  let len := Z.of_nat (length allUsers) in
  let limit := proto.ListUsersRequest.Limit req in
  let start := int32_mul (int32_sub (proto.ListUsersRequest.Page req) 1) limit in
  ListUsers Format_RFC3339 range req w =
    if decide (start >= len) then
      Done (proto.ListUsersResponse.mk [] (int32 len) true
              "No users found for the given page", None) w
    else if decide (0 ≤ start ∧ 0 ≤ limit) then
      Done (proto.ListUsersResponse.mk
              (convert'' <$>
                 take (Z.to_nat (Z.min (start + limit) len - start))
                   (drop (Z.to_nat start) allUsers))
              (int32 len) true "Users retrieved successfully", None) w
    else Panic "slice bounds out of range".
Proof.
  intros Hpage Hlimit allUsers len limit start.
  assert (Hstart : is_int32 start) by apply int32_is_int32.
  unfold is_int32 in *.
  unfold ListUsers, int_add, get_users, bind, ret, panic.
  fold allUsers. fold len. fold limit. fold start.
  rewrite (int_id start) by lia.
  rewrite (int_id limit) by (unfold limit; lia).
  rewrite (int_id (start + limit)) by (unfold limit; lia).
  destruct (decide (start >= len)) as [Hge|Hlt]; [reflexivity|].
  assert (Hclamp : (if decide (start + limit > len) then len
                    else start + limit) = Z.min (start + limit) len)
    by (case_decide; lia).
  rewrite Hclamp. unfold slice. fold len.
  destruct (decide (0 ≤ start ∧ 0 ≤ limit)) as [[H0 Hl]|Hbad].
  - rewrite decide_True by lia. reflexivity.
  - rewrite decide_False by lia. reflexivity.
Qed.

(** X11. For [int32] arguments, List panics exactly when the 32-bit
    [start] it computes is negative, or [start] is below the number of
    records and the limit is negative.  In every other case it returns
    [Success = true] with a nil error, the record count (as an [int32]) as
    total, at most [limit] and at most [total] records, and the world as it
    was. *)
Theorem ListUsers_panics_exactly
    (range : gmap string User → list (string * User))
    (req : proto.ListUsersRequest.t) (w : World)
    (Hpage : is_int32 (proto.ListUsersRequest.Page req))
    (Hlimit : is_int32 (proto.ListUsersRequest.Limit req)) :
  let len := Z.of_nat (length (range (users w)).*2) in
  let limit := proto.ListUsersRequest.Limit req in
  let start := int32_mul (int32_sub (proto.ListUsersRequest.Page req) 1) limit in
  (start < 0 ∨ (start < len ∧ limit < 0) →
   ListUsers Format_RFC3339 range req w = Panic "slice bounds out of range")
  ∧ (0 ≤ start ∧ (len ≤ start ∨ 0 ≤ limit) →
     ∃ resp : proto.ListUsersResponse.t,
       ListUsers Format_RFC3339 range req w = Done (resp, None) w
       ∧ proto.ListUsersResponse.Success resp = true
       ∧ proto.ListUsersResponse.Total resp = int32 len
       ∧ Z.of_nat (length (proto.ListUsersResponse.Users resp)) ≤ Z.max 0 limit
       ∧ Z.of_nat (length (proto.ListUsersResponse.Users resp)) ≤ len).
Proof.
  intros len limit start.
  rewrite (ListUsers_cases range req w Hpage Hlimit). cbv zeta.
  fold len. fold limit. fold start. split.
  - intros Hbad. rewrite decide_False by lia. rewrite decide_False by lia.
    reflexivity.
  - intros Hgood. destruct (decide (start >= len)) as [Hge|Hlt].
    + eexists. split; [reflexivity|]. cbn. split_and!; try reflexivity; lia.
    + rewrite decide_True by lia.
      eexists. split; [reflexivity|]. cbn [proto.ListUsersResponse.Success
        proto.ListUsersResponse.Total proto.ListUsersResponse.Users].
      rewrite length_fmap, length_take, length_drop.
      split_and!; try reflexivity; unfold len in *; lia.
Qed.

Lemma start32_exact (page limit : Z) :
  is_int32 page → is_int32 limit → 0 ≤ limit →
  0 ≤ (page - 1) * limit < 2 ^ 31 →
  int32_mul (int32_sub page 1) limit = (page - 1) * limit.
Proof.
  intros Hpage Hlimit Hnonneg Hstart.
  rewrite <- (start_exact page limit Hpage Hlimit Hnonneg Hstart).
  symmetry. apply int_id.
  pose proof (int32_is_int32 (int32_sub page 1 * limit)) as Hr.
  unfold is_int32, int32_mul in *. lia.
Qed.

(** The records of a page, when nothing overflows. *)
Lemma page_users_chunk (range : gmap string User → list (string * User))
    (page limit : Z) (w : World) :
  is_int32 page → is_int32 limit → 0 ≤ limit →
  0 ≤ (page - 1) * limit < 2 ^ 31 →
  ∃ resp : proto.ListUsersResponse.t,
    ListUsers Format_RFC3339 range (proto.ListUsersRequest.mk page limit) w
    = Done (resp, None) w
    ∧ proto.ListUsersResponse.Users resp =
        convert'' <$>
          take (Z.to_nat limit)
            (drop (Z.to_nat ((page - 1) * limit)) (range (users w)).*2).
Proof.
  intros Hpage Hlimit Hnonneg Hstart.
  rewrite (ListUsers_cases range (proto.ListUsersRequest.mk page limit) w
             Hpage Hlimit). cbv zeta.
  cbn [proto.ListUsersRequest.Page proto.ListUsersRequest.Limit].
  rewrite (start32_exact page limit Hpage Hlimit Hnonneg Hstart).
  set (start := (page - 1) * limit) in *.
  set (allUsers := (range (users w)).*2).
  destruct (decide (start >= Z.of_nat (length allUsers))) as [Hge|Hlt].
  - eexists. split; [reflexivity|]. cbn.
    rewrite drop_ge by lia. by rewrite take_nil.
  - rewrite decide_True by lia.
    eexists. split; [reflexivity|]. cbn. f_equal.
    destruct (decide (start + limit ≤ Z.of_nat (length allUsers))).
    + rewrite Z.min_l by lia. f_equal. lia.
    + rewrite Z.min_r by lia.
      rewrite !take_ge; [reflexivity| |]; rewrite length_drop; lia.
Qed.

(** X12. When nothing overflows (a limit that is not negative and a start
    [(page-1)*limit] between 0 and 2^31), entry number j of the page is
    record number [(page-1)*limit + j] of the sequence List materialised,
    for every j below the limit, and the page has no further entry; past the
    end of the sequence the page simply stops. *)
Theorem page_entries (range : gmap string User → list (string * User))
    (page limit : Z) (w : World)
    (Hpage : is_int32 page) (Hlimit : is_int32 limit)
    (Hnonneg : 0 ≤ limit) (Hstart : 0 ≤ (page - 1) * limit < 2 ^ 31) :
  ∃ resp : proto.ListUsersResponse.t,
    ListUsers Format_RFC3339 range (proto.ListUsersRequest.mk page limit) w
    = Done (resp, None) w
    ∧ ∀ j : nat,
        proto.ListUsersResponse.Users resp !! j =
          if decide (Z.of_nat j < limit)
          then convert'' <$>
                 ((range (users w)).*2
                    !! (Z.to_nat ((page - 1) * limit) + j)%nat)
          else None.
Proof.
  destruct (page_users_chunk range page limit w Hpage Hlimit Hnonneg Hstart)
    as (resp & Hrun & Husers).
  exists resp. split; [exact Hrun|]. intros j.
  rewrite Husers, list_lookup_fmap, lookup_take, lookup_drop.
  destruct (decide (Z.of_nat j < limit)).
  - rewrite decide_True by lia. reflexivity.
  - rewrite decide_False by lia. reflexivity.
Qed.

Lemma pages_prefix (range : gmap string User → list (string * User))
    (limit : Z) (w : World) (k : nat) :
  0 < limit → Z.of_nat k * limit < 2 ^ 31 →
  pages Format_RFC3339 range limit w k =
    convert'' <$> take (k * Z.to_nat limit) (range (users w)).*2.
Proof.
  intros Hpos. unfold pages. induction k as [|k IH]; intros Hfit.
  - reflexivity.
  - rewrite seq_S, bind_app, bind_singleton, IH by lia.
    destruct (page_users_chunk range (Z.of_nat (1 + k)) limit w)
      as (resp & -> & Husers); [unfold is_int32; nia..|].
    cbn [page_users]. rewrite Husers, <- fmap_app. f_equal.
    replace (Z.to_nat ((Z.of_nat (1 + k) - 1) * limit))
      with (k * Z.to_nat limit)%nat by nia.
    rewrite take_take_drop. f_equal. lia.
Qed.

(** X13. With a positive limit, the pages 1, ..., k listed in one world
    under one iteration order, put end to end, are the first [k*limit]
    records of the materialised sequence; as soon as [k*limit] reaches the
    record count they are the whole sequence, so every live record is on
    exactly one page. *)
Theorem pages_cover (range : gmap string User → list (string * User))
    (limit : Z) (w : World) (k : nat)
    (Hrange : range (users w) ≡ₚ map_to_list (users w))
    (Hpos : 0 < limit) (Hfit : Z.of_nat k * limit < 2 ^ 31)
    (Hall : Z.of_nat (size (users w)) ≤ Z.of_nat k * limit) :
  pages Format_RFC3339 range limit w k = convert'' <$> (range (users w)).*2
  ∧ pages Format_RFC3339 range limit w k
    ≡ₚ convert'' <$> (map_to_list (users w)).*2.
Proof.
  assert (Heq : pages Format_RFC3339 range limit w k
                = convert'' <$> (range (users w)).*2).
  { rewrite pages_prefix by lia. f_equal. apply take_ge.
    rewrite (range_length _ _ Hrange). nia. }
  split; [exact Heq|]. rewrite Heq. by rewrite Hrange.
Qed.

(** X14. Whatever [int32] page and limit it is given, overflow included, a
    List call that returns hands back only records that are live in the
    store: every user message of the response is the rendering of a record
    found under some key.  The error is nil and the world is as it was. *)
Theorem listed_users_are_live
    (range : gmap string User → list (string * User))
    (req : proto.ListUsersRequest.t) (w w' : World)
    (resp : proto.ListUsersResponse.t) (e : option error)
    (Hrange : range (users w) ≡ₚ map_to_list (users w))
    (Hpage : is_int32 (proto.ListUsersRequest.Page req))
    (Hlimit : is_int32 (proto.ListUsersRequest.Limit req))
    (Hrun : ListUsers Format_RFC3339 range req w = Done (resp, e) w') :
  e = None ∧ w' = w
  ∧ ∀ pu : proto.User.t,
      pu ∈ proto.ListUsersResponse.Users resp →
      ∃ (id : string) (u : User),
        users w !! id = Some u ∧ pu = convert'' u.
Proof.
  rewrite (ListUsers_cases range req w Hpage Hlimit) in Hrun.
  cbv zeta in Hrun.
  assert (Hlive : ∀ u : User, u ∈ (range (users w)).*2 →
                    ∃ id, users w !! id = Some u).
  { intros u Hu. rewrite Hrange in Hu.
    apply list_elem_of_fmap in Hu as ([id u'] & -> & Hin).
    exists id. by apply elem_of_map_to_list. }
  case_decide.
  - injection Hrun as <- <- <-. split_and!; [done..|].
    intros pu Hpu. cbn in Hpu. by apply elem_of_nil in Hpu.
  - case_decide; [|discriminate].
    injection Hrun as <- <- <-. split_and!; [done..|].
    intros pu Hpu. cbn in Hpu.
    apply list_elem_of_fmap in Hpu as (u & -> & Hu).
    apply elem_of_take in Hu as (i & Hi & _).
    apply list_elem_of_lookup_2 in Hi. apply subseteq_drop in Hi.
    destruct (Hlive u Hi) as [id Hid]. eauto.
Qed.

End Pages.

(** ** Instances of the conditional properties of composition, invariants
    and pages *)

Lemma Create_then_Delete_witness :
  users seeded !! "3" = None
  ∧ ∃ (pu : proto.User.t) (w1 w2 : World),
      CreateUser ticking show create_A seeded =
        Done (proto.CreateUserResponse.mk (Some pu) true
                "User created successfully", None) w1
      ∧ DeleteUser (proto.DeleteUserRequest.mk (proto.User.Id pu)) w1 =
          Done (proto.DeleteUserResponse.mk true "User deleted successfully",
                None) w2
      ∧ users w2 = users seeded.
Proof.
  split; [reflexivity|].
  exact (Create_then_Delete ticking show create_A seeded eq_refl).
Defined.

Lemma served_records_keyed_by_id_witness :
  ∃ w : World,
    serve ticking show
      [ CallCreate create_A;
        CallList map_to_list (proto.ListUsersRequest.mk 1 2);
        CallUpdate (proto.UpdateUserRequest.mk "3" "New" EmptyString 0);
        CallGet (proto.GetUserRequest.mk "1");
        CallDelete (proto.DeleteUserRequest.mk "2") ] boot = Done tt w
    ∧ ∀ (id : string) (u : User), users w !! id = Some u → ID u = id.
Proof.
  destruct (serve ticking show
      [ CallCreate create_A;
        CallList map_to_list (proto.ListUsersRequest.mk 1 2);
        CallUpdate (proto.UpdateUserRequest.mk "3" "New" EmptyString 0);
        CallGet (proto.GetUserRequest.mk "1");
        CallDelete (proto.DeleteUserRequest.mk "2") ] boot)
    as [[] w|msg] eqn:Hserved.
  - exists w. split; [reflexivity|].
    exact (served_records_keyed_by_id ticking show _ boot w Hserved).
  - vm_compute in Hserved. discriminate Hserved.
Defined.

Lemma ids_dense_without_delete_witness :
  ∃ w : World,
    run ticking show
      [ DoCreate create_A;
        DoUpdate (proto.UpdateUserRequest.mk "1" "New" EmptyString 0);
        DoCreate create_B ] boot = Done tt w
    ∧ size (users w) = 4%nat
    ∧ is_Some (users w !! "4")
    ∧ users w !! "5" = None.
Proof.
  destruct (ids_dense_without_delete ticking show
              [ DoCreate create_A;
                DoUpdate (proto.UpdateUserRequest.mk "1" "New" EmptyString 0);
                DoCreate create_B ] boot eq_refl)
    as (w & Hrun & Hsize & Hdense).
  exists w. split_and!.
  - exact Hrun.
  - exact Hsize.
  - apply Hdense. exists 4. rewrite Hsize. split; [simpl; lia|reflexivity].
  - apply eq_None_not_Some. intros Hlive.
    apply Hdense in Hlive as (k & Hk & Heq). rewrite Hsize in Hk.
    assert (k = 1 ∨ k = 2 ∨ k = 3 ∨ k = 4) as [->|[->|[->| ->]]]
      by (simpl in Hk; lia); discriminate Heq.
Defined.

Lemma Creates_stuck_on_live_id_witness :
  is_Some (users seeded_without_john !! "2")
  ∧ ∃ w' : World,
      for_each (mutate ticking show) [DoCreate create_A; DoCreate create_B]
        seeded_without_john = Done tt w'
      ∧ size (users w') = 1%nat
      ∧ users w' !! "2" = Some (mkUser "2" "B" "b@x.com" 41 6 7).
Proof.
  split; [by eexists|].
  destruct (Creates_stuck_on_live_id ticking show [create_A; create_B]
              seeded_without_john (ex_intro _ jane eq_refl))
    as (w' & Hrun & Hsize & _ & _ & _).
  exists w'. split_and!.
  - exact Hrun.
  - exact Hsize.
  - vm_compute in Hrun. injection Hrun as <-. reflexivity.
Defined.

Lemma Delete_then_Create_witness :
  users seeded !! "1" = Some john
  ∧ ∃ (w1 w2 : World) (old : User),
      DeleteUser (proto.DeleteUserRequest.mk "1") seeded =
        Done (proto.DeleteUserResponse.mk true "User deleted successfully",
              None) w1
      ∧ users w1 !! "2" = Some old
      ∧ users w2 !! "2" = Some (mkUser "2" "A" "a@x.com" 20 4 5)
      ∧ S (size (users w2)) = size (users seeded).
Proof.
  split; [reflexivity|].
  destruct (Delete_then_Create ticking show "1" create_A seeded john
              (seed_dense john jane) eq_refl)
    as (w1 & w2 & resp & Hdel & _ & Htop & Hreplaced & _).
  destruct Hreplaced as (old & Hold & Hsize & _); [discriminate|].
  exists w1, w2, old. split_and!; assumption.
Defined.

Lemma Update_moves_updatedAt_forward_witness :
  (∀ i j : nat, (i ≤ j)%nat → ticking i ≤ ticking j)
  ∧ ∃ (w w' : World) (user : User)
      (resp : proto.UpdateUserResponse.t),
      run ticking show [DoCreate create_A] boot = Done tt w
      ∧ users w !! "1" = Some john
      ∧ UpdateUser ticking show
          (proto.UpdateUserRequest.mk "1" "New" EmptyString 0) w
        = Done (resp, None) w'
      ∧ users w' !! "1" = Some user
      ∧ UpdatedAt john ≤ UpdatedAt user
      ∧ CreatedAt user = CreatedAt john.
Proof.
  assert (Hmono : ∀ i j : nat, (i ≤ j)%nat → ticking i ≤ ticking j)
    by (unfold ticking; lia).
  split; [exact Hmono|].
  destruct (run ticking show [DoCreate create_A] boot) as [[] w|msg] eqn:Hrun.
  - assert (Hjohn : users w !! "1" = Some john)
      by (vm_compute in Hrun; injection Hrun as <-; reflexivity).
    destruct (Update_moves_updatedAt_forward ticking show Hmono
                [DoCreate create_A] boot w
                (proto.UpdateUserRequest.mk "1" "New" EmptyString 0) john
                Hrun Hjohn)
      as (user & resp & w' & Hupd & Hstored & Hle & Hcreated & _).
    exists w, w', user, resp. split_and!; try assumption; reflexivity.
  - vm_compute in Hrun. discriminate Hrun.
Defined.

Lemma ListUsers_panics_exactly_witness :
  ListUsers show map_to_list (proto.ListUsersRequest.mk 0 1) seeded
    = Panic "slice bounds out of range"
  ∧ ∃ resp : proto.ListUsersResponse.t,
      ListUsers show map_to_list (proto.ListUsersRequest.mk 2 1) seeded
        = Done (resp, None) seeded
      ∧ proto.ListUsersResponse.Success resp = true
      ∧ proto.ListUsersResponse.Total resp = 2.
Proof.
  split.
  - apply (ListUsers_panics_exactly show map_to_list
             (proto.ListUsersRequest.mk 0 1) seeded);
      [unfold is_int32; simpl; lia..|].
    left. vm_compute. reflexivity.
  - destruct (ListUsers_panics_exactly show map_to_list
                (proto.ListUsersRequest.mk 2 1) seeded) as [_ Hreturns];
      [unfold is_int32; simpl; lia..|].
    destruct Hreturns as (resp & Hrun & Hsuccess & Htotal & _).
    + split; [|right]; vm_compute; discriminate.
    + exists resp. split_and!; assumption.
Defined.

Lemma page_entries_witness :
  ∃ resp : proto.ListUsersResponse.t,
    ListUsers show map_to_list (proto.ListUsersRequest.mk 2 1) seeded
      = Done (resp, None) seeded
    ∧ proto.ListUsersResponse.Users resp !! 0%nat
      = Some (convertToProtoUser show jane)
    ∧ proto.ListUsersResponse.Users resp !! 1%nat = None.
Proof.
  destruct (page_entries show map_to_list 2 1 seeded) as (resp & Hrun & Hentries);
    [unfold is_int32; lia..|].
  exists resp. split_and!.
  - exact Hrun.
  - rewrite (Hentries 0%nat). reflexivity.
  - rewrite (Hentries 1%nat). reflexivity.
Defined.

Lemma pages_cover_witness :
  pages show map_to_list 1 seeded 2
    = [convertToProtoUser show john; convertToProtoUser show jane]
  ∧ pages show map_to_list 1 seeded 2
    ≡ₚ convertToProtoUser show <$> (map_to_list (users seeded)).*2.
Proof.
  destruct (pages_cover show map_to_list 1 seeded 2) as [Heq Hperm];
    [reflexivity|lia|lia|vm_compute; discriminate|].
  split; [|exact Hperm]. rewrite Heq. reflexivity.
Defined.

Lemma listed_users_are_live_witness :
  ∃ (resp : proto.ListUsersResponse.t),
    ListUsers show map_to_list (proto.ListUsersRequest.mk 65537 65536) seeded
      = Done (resp, None) seeded
    ∧ ∀ pu : proto.User.t,
        pu ∈ proto.ListUsersResponse.Users resp →
        ∃ (id : string) (u : User),
          users seeded !! id = Some u ∧ pu = convertToProtoUser show u.
Proof.
  eexists. split; [reflexivity|].
  apply (listed_users_are_live show map_to_list
           (proto.ListUsersRequest.mk 65537 65536) seeded seeded _ None);
    [reflexivity|unfold is_int32; simpl; lia..|reflexivity].
Defined.
